(** * A shallow embedding of the task-queue core (src/src/core.rs, src/src/server.rs)

    Identifiers ([Uuid]) are modelled as [N]; wall-clock timestamps
    ([SystemTime], [DateTime<Utc>]) as a [Z] reading of the clock passed to
    every operation as [now]; [u32] counters as [Z]; the [f64] values the
    modelled operations only store (coverage, scores, cpu usage) as [Q].
    Fields that no modelled operation reads or writes (timeout, retry
    settings, environment, working directory, metadata, task type,
    technical specs, acceptance criteria) are left out of the records. *)

From Stdlib Require Import ZArith QArith_base List.
From stdpp Require Import base gmap sets list strings.

Open Scope Z_scope.

Definition Uuid := N.
Bind Scope N_scope with Uuid.

(** ** Data model (core.rs) *)

Inductive TaskStatus :=
  (* development lifecycle *)
  | Planning | Implementation | TestCreation | Testing | AIReview | Finalized
  (* legacy *)
  | AnalysisAndDocumentation | InDiscussion | InImplementation | InReview
  | InTesting
  (* execution *)
  | Pending | Running | Completed | Failed | Cancelled
  | WaitingForDependencies.

#[global] Instance TaskStatus_eq_dec : EqDecision TaskStatus.
Proof. solve_decision. Defined.

(** The [Debug] rendering used in error messages. *)
Definition TaskStatus_debug (s : TaskStatus) : string :=
  match s with
  | Planning => "Planning" | Implementation => "Implementation"
  | TestCreation => "TestCreation" | Testing => "Testing"
  | AIReview => "AIReview" | Finalized => "Finalized"
  | AnalysisAndDocumentation => "AnalysisAndDocumentation"
  | InDiscussion => "InDiscussion" | InImplementation => "InImplementation"
  | InReview => "InReview" | InTesting => "InTesting"
  | Pending => "Pending" | Running => "Running" | Completed => "Completed"
  | Failed => "Failed" | Cancelled => "Cancelled"
  | WaitingForDependencies => "WaitingForDependencies"
  end.

Record TaskMetrics := {
  execution_time : Z;
  memory_usage : Z;
  cpu_usage : Q;
  disk_usage : Z;
  network_io : Z }.

Inductive TaskResult :=
  | RSuccess (output : string) (artifacts : list string) (metrics : TaskMetrics)
  | RFailure (error : string) (exit_code : option Z) (logs : list string)
  | RCancelled (reason : string).

Inductive DependencyCondition :=
  | CSuccess | CFailure | CCompletion | CCustom (json : string).

Inductive TaskPriority := Low | Normal | High | Critical.

Inductive ProjectStatus :=
  | PPlanning | PActive | POnHold | PCompleted | PCancelled.

Record AIReview_ := {
  rv_model_name : string;
  rv_review_result : string;
  rv_score : Q;
  rv_suggestions : list string;
  rv_approved : bool;
  rv_reviewed_at : Z }.

Record TaskPhase := {
  phase : TaskStatus;
  started_at : option Z;
  completed_at : option Z;
  documentation : option string;
  phase_artifacts : list string;
  ai_reviews : list AIReview_ }.

Inductive DevelopmentWorkflowStatus :=
  | NotStarted | WPlanning | WInImplementation | WTestCreation | WTesting
  | WAIReview | WCompleted | WFailed.

#[global] Instance DevelopmentWorkflowStatus_eq_dec :
  EqDecision DevelopmentWorkflowStatus.
Proof. solve_decision. Defined.

Inductive AIReviewType :=
  | CodeQuality | Security | Performance | Documentation | TestingReview
  | Architecture.

Record AIDevelopmentReview := {
  dr_model_name : string;
  dr_review_type : AIReviewType;
  dr_content : string;
  dr_score : Q;
  dr_approved : bool;
  dr_suggestions : list string;
  dr_reviewed_at : Z }.

Record DevelopmentWorkflow := {
  technical_documentation_path : option string;
  test_coverage_percentage : option Q;
  ai_review_reports : list AIDevelopmentReview;
  workflow_status : DevelopmentWorkflowStatus;
  wf_started_at : option Z;
  wf_completed_at : option Z }.

Record Dependency := {
  dep_task_id : Uuid;
  dep_task_name : option string;
  condition : DependencyCondition;
  required : bool;
  correlation_id : option string }.

Record Task := {
  id : Uuid;
  name : string;
  command : string;
  description : string;
  project : option string;
  priority : TaskPriority;
  project_id : option Uuid;
  dependencies : list Dependency;
  created_at : Z;
  updated_at : Z;
  status : TaskStatus;
  result : option TaskResult;
  phases : list TaskPhase;
  current_phase : TaskStatus;
  ai_reviews_required : Z;
  ai_reviews_completed : Z;
  development_workflow : option DevelopmentWorkflow }.

(** Functional record updates for the fields the operations write. *)
Definition with_state (t : Task) (st : TaskStatus) (ps : list TaskPhase)
    (cur : TaskStatus) (now : Z) : Task :=
  {| id := id t; name := name t; command := command t;
     description := description t; project := project t;
     priority := priority t; project_id := project_id t;
     dependencies := dependencies t; created_at := created_at t;
     updated_at := now; status := st; result := result t; phases := ps;
     current_phase := cur; ai_reviews_required := ai_reviews_required t;
     ai_reviews_completed := ai_reviews_completed t;
     development_workflow := development_workflow t |}.

Definition with_status_result (t : Task) (st : TaskStatus)
    (r : option TaskResult) (now : Z) : Task :=
  {| id := id t; name := name t; command := command t;
     description := description t; project := project t;
     priority := priority t; project_id := project_id t;
     dependencies := dependencies t; created_at := created_at t;
     updated_at := now; status := st; result := r; phases := phases t;
     current_phase := current_phase t;
     ai_reviews_required := ai_reviews_required t;
     ai_reviews_completed := ai_reviews_completed t;
     development_workflow := development_workflow t |}.

Definition with_reviews (t : Task) (ps : list TaskPhase) (completed : Z)
    (wf : option DevelopmentWorkflow) (now : Z) : Task :=
  {| id := id t; name := name t; command := command t;
     description := description t; project := project t;
     priority := priority t; project_id := project_id t;
     dependencies := dependencies t; created_at := created_at t;
     updated_at := now; status := status t; result := result t;
     phases := ps; current_phase := current_phase t;
     ai_reviews_required := ai_reviews_required t;
     ai_reviews_completed := completed; development_workflow := wf |}.

Definition with_project_id (t : Task) (p : option Uuid) : Task :=
  {| id := id t; name := name t; command := command t;
     description := description t; project := project t;
     priority := priority t; project_id := p;
     dependencies := dependencies t; created_at := created_at t;
     updated_at := updated_at t; status := status t; result := result t;
     phases := phases t; current_phase := current_phase t;
     ai_reviews_required := ai_reviews_required t;
     ai_reviews_completed := ai_reviews_completed t;
     development_workflow := development_workflow t |}.

Definition with_workflow (t : Task) (wf : option DevelopmentWorkflow)
    (now : Z) : Task :=
  {| id := id t; name := name t; command := command t;
     description := description t; project := project t;
     priority := priority t; project_id := project_id t;
     dependencies := dependencies t; created_at := created_at t;
     updated_at := now; status := status t; result := result t;
     phases := phases t; current_phase := current_phase t;
     ai_reviews_required := ai_reviews_required t;
     ai_reviews_completed := ai_reviews_completed t;
     development_workflow := wf |}.

Inductive Result (A E : Type) := Ok (a : A) | Err (e : E).
Arguments Ok {A E} a.
Arguments Err {A E} e.

(** ** Phase state machine (core.rs, [impl Task]) *)

(** [Task::can_transition_to]: the arms are tried in order. *)
Definition can_transition_to (t : Task) (new_status : TaskStatus) : bool :=
  match current_phase t, new_status with
  | Planning, Implementation => true
  | Implementation, TestCreation => true
  | TestCreation, Testing => true
  | Testing, AIReview => true
  | AIReview, Finalized => ai_reviews_required t <=? ai_reviews_completed t
  | AIReview, Implementation => true
  | Failed, Implementation => true
  | Failed, Planning => true
  | _, Cancelled => true
  | current, new => bool_decide (current = new)
  end.

Definition new_phase (p : TaskStatus) (now : Z) : TaskPhase :=
  {| phase := p; started_at := Some now; completed_at := None;
     documentation := None; phase_artifacts := []; ai_reviews := [] |}.

Definition close_phase (now : Z) (p : TaskPhase) : TaskPhase :=
  {| phase := phase p; started_at := started_at p; completed_at := Some now;
     documentation := documentation p; phase_artifacts := phase_artifacts p;
     ai_reviews := ai_reviews p |}.

(** [if let Some(p) = self.phases.last_mut() { p.completed_at = Some(now) }] *)
Fixpoint complete_last (now : Z) (ps : list TaskPhase) : list TaskPhase :=
  match ps with
  | [] => []
  | [p] => [close_phase now p]
  | p :: ps' => p :: complete_last now ps'
  end.

(** [Task::set_status]: on error the task is left untouched. *)
Definition set_status (now : Z) (t : Task) (new_status : TaskStatus)
    : Result Task string :=
  if negb (can_transition_to t new_status) then
    Err ("Invalid status transition from " +:+ TaskStatus_debug (current_phase t)
         +:+ " to " +:+ TaskStatus_debug new_status)%string
  else
    let ps :=
      match new_status with
      | AIReview =>
          if bool_decide (current_phase t <> AIReview)
          then complete_last now (phases t) ++ [new_phase AIReview now]
          else phases t
      | Implementation =>
          if bool_decide (current_phase t = AIReview)
          then complete_last now (phases t) ++ [new_phase Implementation now]
          else phases t
      | Finalized => complete_last now (phases t)
      | _ =>
          if bool_decide (current_phase t <> new_status)
          then complete_last now (phases t) ++ [new_phase new_status now]
          else phases t
      end in
    Ok (with_state t new_status ps new_status now).

(** [Task::advance_phase]; the formatted counts of the AIReview message are
    not rendered. *)
Definition advance_phase (now : Z) (t : Task) : Result Task string :=
  match current_phase t with
  | Planning => set_status now t Implementation
  | Implementation => set_status now t TestCreation
  | TestCreation => set_status now t Testing
  | Testing => set_status now t AIReview
  | AIReview =>
      if ai_reviews_required t <=? ai_reviews_completed t
      then set_status now t Finalized
      else Err "Need more AI reviews"%string
  | Finalized => Err "Task already finalized"%string
  | _ => Err "Invalid phase transition"%string
  end.

(** [Task::add_ai_review]: the review goes to the last phase; the counter
    ([u32], [+= 1]) is bumped only when there is a last phase. *)
Fixpoint push_review_last (r : AIReview_) (ps : list TaskPhase)
    : list TaskPhase :=
  match ps with
  | [] => []
  | [p] => [{| phase := phase p; started_at := started_at p;
               completed_at := completed_at p;
               documentation := documentation p;
               phase_artifacts := phase_artifacts p;
               ai_reviews := ai_reviews p ++ [r] |}]
  | p :: ps' => p :: push_review_last r ps'
  end.

Definition add_ai_review (now : Z) (t : Task) (r : AIReview_) : Task :=
  match phases t with
  | [] => with_reviews t (phases t) (ai_reviews_completed t)
            (development_workflow t) now
  | _ => with_reviews t (push_review_last r (phases t))
            ((ai_reviews_completed t + 1) mod 2 ^ 32)
            (development_workflow t) now
  end.

(** ** Readiness (core.rs, [Task::is_ready]) *)

Fixpoint deps_ready (deps : list Dependency)
    (completed_tasks : gmap Uuid TaskResult) : bool :=
  match deps with
  | [] => true
  | d :: ds =>
      match completed_tasks !! dep_task_id d with
      | Some r =>
          match condition d, r with
          | CSuccess, RSuccess _ _ _ => deps_ready ds completed_tasks
          | CFailure, RFailure _ _ _ => deps_ready ds completed_tasks
          | CCompletion, _ => deps_ready ds completed_tasks
          | _, _ => false
          end
      | None => false
      end
  end.

Definition is_ready (t : Task) (completed_tasks : gmap Uuid TaskResult) : bool :=
  deps_ready (dependencies t) completed_tasks.

(** ** Effective status (server.rs, [get_effective_task_status]) *)

Definition get_effective_task_status (t : Task) : TaskStatus :=
  match development_workflow t with
  | Some w =>
      if bool_decide (workflow_status w = NotStarted) then
        match current_phase t with
        | Planning => Planning
        | Implementation => Implementation
        | TestCreation => TestCreation
        | Testing => Testing
        | AIReview => AIReview
        | Finalized => Finalized
        | Completed => Completed
        | Failed => Failed
        | Cancelled => Cancelled
        | _ => Planning
        end
      else
        match workflow_status w with
        | NotStarted => Planning
        | WPlanning => Planning
        | WInImplementation => Implementation
        | WTestCreation => TestCreation
        | WTesting => Testing
        | WAIReview => AIReview
        | WCompleted => Completed
        | WFailed => Failed
        end
  | None => current_phase t
  end.

(** ** Errors (error.rs); payloads that the source renders as strings of
    ids keep the id itself. *)

Inductive TaskQueueError :=
  | TaskNotFound (task_id : Uuid)
  | WorkflowNotFound (workflow_id : Uuid)
  | ProjectNotFound (project_id : Uuid)
  | CircularDependency (cycle : string)
  | StorageError
  | InvalidStatusTransition (msg : string)
  | InvalidTaskDefinition (reason : string)
  | WorkflowValidationFailed (reason : string)
  | ValidationError (reason : string).

(** [impl From<String> for TaskQueueError] *)
Definition error_from_string (s : string) : TaskQueueError :=
  InvalidStatusTransition s.

(** ** Projects and workflows (core.rs) *)

Record Project := {
  p_id : Uuid;
  p_name : string;
  p_description : option string;
  p_status : ProjectStatus;
  p_created_at : Z;
  p_updated_at : Z;
  p_tags : list string }.

Inductive WorkflowStatus :=
  | WfPending | WfRunning | WfCompleted | WfFailed | WfCancelled.

Record WorkflowDependency := {
  from_task : Uuid;
  to_task : Uuid;
  wd_condition : DependencyCondition }.

Record Workflow := {
  w_id : Uuid;
  w_name : string;
  w_description : option string;
  w_tasks : list Task;
  w_dependencies : list WorkflowDependency;
  w_created_at : Z;
  w_updated_at : Z;
  w_status : WorkflowStatus }.

(** ** Server state: the in-memory maps and the durable store

    [StorageEngine] keeps one keyspace per entity kind, keyed by the
    entity id; a stored value is modelled by the entity it serialises.
    A write ([insert] or [remove] on the tree, then [flush_async]) ends in
    one of three ways, given to each operation as [io]. *)

Record Storage := {
  tasks_tree : gmap Uuid Task;
  workflows_tree : gmap Uuid Workflow;
  projects_tree : gmap Uuid Project }.

(** [WriteFails]: the sled [insert] or [remove] fails, the tree is
    unchanged.  [FlushFails]: the tree is changed, then [flush_async]
    fails.  Both reach the caller as [StorageError] (through
    [#[from] sled::Error]); serialising the entities cannot fail, their
    maps having string keys. *)
Inductive StoreOutcome := StoreOk | WriteFails | FlushFails.

(** The write is reported as a success. *)
Definition store_ok (io : StoreOutcome) : bool :=
  match io with StoreOk => true | _ => false end.

(** The tree has been changed. *)
Definition write_applied (io : StoreOutcome) : bool :=
  match io with WriteFails => false | _ => true end.

(** [tree.insert(..)?; tree.flush_async().await?; Ok(())], with [st'] the
    store after the insert or remove. *)
Definition write_tree (io : StoreOutcome) (st st' : Storage)
    : Storage * Result unit TaskQueueError :=
  match io with
  | StoreOk => (st', Ok tt)
  | WriteFails => (st, Err StorageError)
  | FlushFails => (st', Err StorageError)
  end.

Record Server := {
  tasks : gmap Uuid Task;
  workflows : gmap Uuid Workflow;
  projects : gmap Uuid Project;
  storage : Storage }.

Definition with_tasks (s : Server) (m : gmap Uuid Task) : Server :=
  {| tasks := m; workflows := workflows s; projects := projects s;
     storage := storage s |}.

Definition with_workflows (s : Server) (m : gmap Uuid Workflow) : Server :=
  {| tasks := tasks s; workflows := m; projects := projects s;
     storage := storage s |}.

Definition with_projects (s : Server) (m : gmap Uuid Project) : Server :=
  {| tasks := tasks s; workflows := workflows s; projects := m;
     storage := storage s |}.

Definition with_storage (s : Server) (st : Storage) : Server :=
  {| tasks := tasks s; workflows := workflows s; projects := projects s;
     storage := st |}.

(** [StorageEngine::store_task], [store_workflow], [delete_project]. *)
Definition store_task (io : StoreOutcome) (st : Storage) (t : Task)
    : Storage * Result unit TaskQueueError :=
  write_tree io st
    {| tasks_tree := <[id t := t]> (tasks_tree st);
       workflows_tree := workflows_tree st;
       projects_tree := projects_tree st |}.

Definition store_workflow (io : StoreOutcome) (st : Storage) (w : Workflow)
    : Storage * Result unit TaskQueueError :=
  write_tree io st
    {| tasks_tree := tasks_tree st;
       workflows_tree := <[w_id w := w]> (workflows_tree st);
       projects_tree := projects_tree st |}.

Definition storage_delete_project (io : StoreOutcome) (st : Storage) (pid : Uuid)
    : Storage * Result unit TaskQueueError :=
  write_tree io st
    {| tasks_tree := tasks_tree st;
       workflows_tree := workflows_tree st;
       projects_tree := delete pid (projects_tree st) |}.

(** An operation returns the new server state together with its result:
    the in-memory maps stay mutated when a later step fails, and the store
    is as the failed write left it. *)
Definition Op (A : Type) : Type := (Server * Result A TaskQueueError)%type.

(** The common tail [self.storage.store_task(task).await?; Ok(..)]. *)
Definition persist_task {A} (io : StoreOutcome) (srv : Server) (t : Task) (a : A)
    : Op A :=
  match store_task io (storage srv) t with
  | (st, Ok _) => (with_storage srv st, Ok a)
  | (st, Err e) => (with_storage srv st, Err e)
  end.

(** ** Server operations (server.rs, [impl TaskQueueServer]) *)

(** [validate_task] *)
Definition validate_task (srv : Server) (t : Task) : Result unit TaskQueueError :=
  if bool_decide (name t = ""%string) then
    Err (InvalidTaskDefinition "Task name cannot be empty")
  else if bool_decide (command t = ""%string) then
    Err (InvalidTaskDefinition "Task command cannot be empty")
  else
    match project_id t with
    | None => Err (InvalidTaskDefinition "Task must be associated with a project")
    | Some pid =>
        match projects srv !! pid with
        | None => Err (InvalidTaskDefinition "Project does not exist")
        | Some _ => Ok tt
        end
    end.

(** [submit_task]: insert in memory, then persist.  The [.tasks] file
    update, the vectorizer call and the metrics are best-effort and do not
    touch the maps or the store. *)
Definition submit_task (io : StoreOutcome) (srv : Server) (t : Task) : Op Uuid :=
  match validate_task srv t with
  | Err e => (srv, Err e)
  | Ok _ =>
      let srv1 := with_tasks srv (<[id t := t]> (tasks srv)) in
      persist_task io srv1 t (id t)
  end.

(** [set_task_status]: [task.set_status(new_status)?] converts the
    [String] error through [From<String>]. *)
Definition set_task_status (io : StoreOutcome) (now : Z) (srv : Server)
    (task_id : Uuid) (new_status : TaskStatus) : Op unit :=
  match tasks srv !! task_id with
  | Some t =>
      match set_status now t new_status with
      | Err msg => (srv, Err (error_from_string msg))
      | Ok t' =>
          let srv1 := with_tasks srv (<[task_id := t']> (tasks srv)) in
          persist_task io srv1 t' tt
      end
  | None => (srv, Err (TaskNotFound task_id))
  end.

(** [advance_task_phase]: a refused advance is reported as [Ok(false)]. *)
Definition advance_task_phase (io : StoreOutcome) (now : Z) (srv : Server)
    (task_id : Uuid) : Op bool :=
  match tasks srv !! task_id with
  | Some t =>
      match advance_phase now t with
      | Ok t' =>
          let srv1 := with_tasks srv (<[task_id := t']> (tasks srv)) in
          persist_task io srv1 t' true
      | Err _ => (srv, Ok false)
      end
  | None => (srv, Err (TaskNotFound task_id))
  end.

(** [cancel_task] *)
Definition cancel_task (io : StoreOutcome) (now : Z) (srv : Server) (task_id : Uuid)
    (reason : string) : Op unit :=
  match tasks srv !! task_id with
  | Some t =>
      let t' := with_status_result t Cancelled (Some (RCancelled reason)) now in
      let srv1 := with_tasks srv (<[task_id := t']> (tasks srv)) in
      persist_task io srv1 t' tt
  | None => (srv, Err (TaskNotFound task_id))
  end.

(** [delete_project]: the project is removed from memory, every task that
    referenced it loses its [project_id] in memory, then the project is
    deleted from the store. *)
Definition clear_project (pid : Uuid) (t : Task) : Task :=
  if bool_decide (project_id t = Some pid) then with_project_id t None else t.

Definition delete_project (io : StoreOutcome) (srv : Server) (pid : Uuid) : Op unit :=
  match projects srv !! pid with
  | Some _ =>
      let srv1 := with_tasks (with_projects srv (delete pid (projects srv)))
                    (clear_project pid <$> tasks srv) in
      match storage_delete_project io (storage srv1) pid with
      | (st, r) => (with_storage srv1 st, r)
      end
  | None => (srv, Err (ProjectNotFound pid))
  end.

(** [set_test_coverage] *)
Definition set_coverage (w : DevelopmentWorkflow) (c : Q) : DevelopmentWorkflow :=
  {| technical_documentation_path := technical_documentation_path w;
     test_coverage_percentage := Some c;
     ai_review_reports := ai_review_reports w;
     workflow_status := workflow_status w;
     wf_started_at := wf_started_at w; wf_completed_at := wf_completed_at w |}.

Definition set_test_coverage (io : StoreOutcome) (now : Z) (srv : Server)
    (task_id : Uuid) (coverage : Q) : Op unit :=
  match tasks srv !! task_id with
  | Some t =>
      match development_workflow t with
      | Some w =>
          let t' := with_workflow t (Some (set_coverage w coverage)) now in
          let srv1 := with_tasks srv (<[task_id := t']> (tasks srv)) in
          persist_task io srv1 t' tt
      | None =>
          (srv, Err (ValidationError "Task has no development workflow initialized"))
      end
  | None => (srv, Err (TaskNotFound task_id))
  end.

(** [add_ai_review_report]: push, then
    [ai_reviews_completed = reports.len() as u32]. *)
Definition push_report (w : DevelopmentWorkflow) (r : AIDevelopmentReview)
    : DevelopmentWorkflow :=
  {| technical_documentation_path := technical_documentation_path w;
     test_coverage_percentage := test_coverage_percentage w;
     ai_review_reports := ai_review_reports w ++ [r];
     workflow_status := workflow_status w;
     wf_started_at := wf_started_at w; wf_completed_at := wf_completed_at w |}.

Definition add_ai_review_report (io : StoreOutcome) (now : Z) (srv : Server)
    (task_id : Uuid) (review : AIDevelopmentReview) : Op unit :=
  match tasks srv !! task_id with
  | Some t =>
      match development_workflow t with
      | Some w =>
          let w' := push_report w review in
          let t' := with_reviews t (phases t)
                      (Z.of_nat (length (ai_review_reports w')) mod 2 ^ 32)
                      (Some w') now in
          let srv1 := with_tasks srv (<[task_id := t']> (tasks srv)) in
          persist_task io srv1 t' tt
      | None =>
          (srv, Err (ValidationError "Task has no development workflow initialized"))
      end
  | None => (srv, Err (TaskNotFound task_id))
  end.

(** [list_tasks]: the status filter compares the string as given. *)
Definition status_filter_matches (status_s : string) (eff : TaskStatus) : bool :=
  if String.eqb status_s "planning" then bool_decide (eff = Planning)
  else if String.eqb status_s "pending" then bool_decide (eff = Pending)
  else if String.eqb status_s "running" then bool_decide (eff = Running)
  else if String.eqb status_s "completed" then bool_decide (eff = Completed)
  else if String.eqb status_s "failed" then bool_decide (eff = Failed)
  else if String.eqb status_s "cancelled" then bool_decide (eff = Cancelled)
  else if String.eqb status_s "implementation" then
    bool_decide (eff = InImplementation)
  else if String.eqb status_s "testcreation" then bool_decide (eff = TestCreation)
  else if String.eqb status_s "testing" then bool_decide (eff = Testing)
  else if String.eqb status_s "aireview" then bool_decide (eff = AIReview)
  else false.

Definition display_task (t : Task) : Task :=
  with_status_result t (get_effective_task_status t) (result t) (updated_at t).

Definition list_tasks (srv : Server) (project_f : option string)
    (status_f : option string) : list Task :=
  let all := (map_to_list (tasks srv)).*2 in
  let by_project :=
    match project_f with
    | Some p => filter (fun t => project t = Some p) all
    | None => all
    end in
  let by_status :=
    match status_f with
    | Some s =>
        filter (fun t => status_filter_matches s (get_effective_task_status t) = true)
          by_project
    | None => by_project
    end in
  display_task <$> by_status.

(** ** Workflow validation: depth-first cycle detection *)

(** [tasks.iter().find(|t| t.id == task_id)] *)
Definition find_task (ts : list Task) (u : Uuid) : option Task :=
  List.find (fun t => N.eqb (id t) u) ts.

Definition dep_ids (t : Task) : list Uuid := map dep_task_id (dependencies t).

(** The loop [for dependency in &task.dependencies] of [has_cycle], given
    the recursive call [hc]. *)
Fixpoint deps_loop (hc : Uuid -> gset Uuid -> gset Uuid -> bool * gset Uuid * gset Uuid)
    (deps : list Dependency) (visited rec_stack : gset Uuid)
    : bool * gset Uuid * gset Uuid :=
  match deps with
  | [] => (false, visited, rec_stack)
  | d :: ds =>
      if bool_decide (dep_task_id d ∈ visited) then
        if bool_decide (dep_task_id d ∈ rec_stack) then (true, visited, rec_stack)
        else deps_loop hc ds visited rec_stack
      else
        match hc (dep_task_id d) visited rec_stack with
        | (true, v, r) => (true, v, r)
        | (false, v, r) => deps_loop hc ds v r
        end
  end.

(** [has_cycle].  Every call marks a node that was not yet visited, so the
    recursion depth is bounded by the number of distinct ids of the
    workflow; [fuel] makes that bound explicit (the correctness lemma
    below shows [dfs_bound] is enough). *)
Fixpoint has_cycle (fuel : nat) (ts : list Task) (task_id : Uuid)
    (visited rec_stack : gset Uuid) : bool * gset Uuid * gset Uuid :=
  match fuel with
  | O => (false, visited, rec_stack)
  | S fuel' =>
      let visited := {[task_id]} ∪ visited in
      let rec_stack := {[task_id]} ∪ rec_stack in
      match find_task ts task_id with
      | Some t =>
          match deps_loop (has_cycle fuel' ts) (dependencies t) visited rec_stack with
          | (true, v, r) => (true, v, r)
          | (false, v, r) => (false, v, r ∖ {[task_id]})
          end
      | None => (false, visited, rec_stack ∖ {[task_id]})
      end
  end.

(** The loop [for task in &workflow.tasks] of [check_circular_dependencies];
    [true] means a cycle was reported. *)
Fixpoint check_loop (fuel : nat) (ts todo : list Task)
    (visited rec_stack : gset Uuid) : bool :=
  match todo with
  | [] => false
  | t :: todo' =>
      if bool_decide (id t ∈ visited) then check_loop fuel ts todo' visited rec_stack
      else
        match has_cycle fuel ts (id t) visited rec_stack with
        | (true, _, _) => true
        | (false, v, r) => check_loop fuel ts todo' v r
        end
  end.

(** Every id the search can reach: the tasks' ids and their dependencies'. *)
Definition node_universe (ts : list Task) : gset Uuid :=
  list_to_set (map id ts ++ concat (map dep_ids ts)).

Definition dfs_bound (ts : list Task) : nat := S (size (node_universe ts)).

Definition check_circular_dependencies (w : Workflow) : Result unit TaskQueueError :=
  if check_loop (dfs_bound (w_tasks w)) (w_tasks w) (w_tasks w) ∅ ∅
  then Err (CircularDependency "Circular dependency detected in workflow")
  else Ok tt.

Definition validate_workflow (w : Workflow) : Result unit TaskQueueError :=
  if bool_decide (w_name w = ""%string) then
    Err (WorkflowValidationFailed "Workflow name cannot be empty")
  else if bool_decide (w_tasks w = []) then
    Err (WorkflowValidationFailed "Workflow must contain at least one task")
  else check_circular_dependencies w.

(** [submit_workflow]: validate, insert in memory, persist. *)
Definition submit_workflow (io : StoreOutcome) (srv : Server) (w : Workflow) : Op Uuid :=
  match validate_workflow w with
  | Err e => (srv, Err e)
  | Ok _ =>
      let srv1 := with_workflows srv (<[w_id w := w]> (workflows srv)) in
      match store_workflow io (storage srv1) w with
      | (st, Ok _) => (with_storage srv1 st, Ok (w_id w))
      | (st, Err e) => (with_storage srv1 st, Err e)
      end
  end.

(** ** Sample values *)

Definition sample_phase (p : TaskStatus) : TaskPhase := new_phase p 0.

Definition mk_dep (u : Uuid) (c : DependencyCondition) (req : bool) : Dependency :=
  {| dep_task_id := u; dep_task_name := None; condition := c; required := req;
     correlation_id := None |}.

Definition fresh_workflow : DevelopmentWorkflow :=
  {| technical_documentation_path := None; test_coverage_percentage := None;
     ai_review_reports := []; workflow_status := NotStarted;
     wf_started_at := None; wf_completed_at := None |}.

Definition mk_task (u : Uuid) (deps : list Dependency) (cur : TaskStatus)
    (ps : list TaskPhase) (req done_ : Z) (wf : option DevelopmentWorkflow) : Task :=
  {| id := u; name := "t"; command := "noop"; description := "d";
     project := None; priority := Normal; project_id := Some 100%N;
     dependencies := deps; created_at := 0; updated_at := 0; status := cur;
     result := None; phases := ps; current_phase := cur;
     ai_reviews_required := req; ai_reviews_completed := done_;
     development_workflow := wf |}.

Definition mk_workflow (ts : list Task) : Workflow :=
  {| w_id := 7%N; w_name := "w"; w_description := None; w_tasks := ts;
     w_dependencies := []; w_created_at := 0; w_updated_at := 0;
     w_status := WfPending |}.

Definition sample_project : Project :=
  {| p_id := 100%N; p_name := "alpha"; p_description := None;
     p_status := PPlanning; p_created_at := 0; p_updated_at := 0; p_tags := [] |}.

Definition empty_storage : Storage :=
  {| tasks_tree := ∅; workflows_tree := ∅; projects_tree := ∅ |}.

Definition sample_server : Server :=
  {| tasks := ∅; workflows := ∅; projects := {[100%N := sample_project]};
     storage := empty_storage |}.

(** ** Specification-side readings of the claims *)

(** The legal-transition table of the spec (section 4.3), read literally. *)
Definition legal_transition (from to : TaskStatus) (completed required : Z) : Prop :=
  (from = Planning /\ to = Implementation) \/
  (from = Implementation /\ to = TestCreation) \/
  (from = TestCreation /\ to = Testing) \/
  (from = Testing /\ to = AIReview) \/
  (from = AIReview /\ to = Finalized /\ required <= completed) \/
  (from = AIReview /\ to = Implementation) \/
  (from = Failed /\ to = Implementation) \/
  (from = Failed /\ to = Planning) \/
  to = Cancelled \/
  to = from.

(** Case 2 of the effective-status rule: the trivial phase mapping. *)
Definition trivial_phase_map (p : TaskStatus) : TaskStatus :=
  match p with
  | Planning => Planning | Implementation => Implementation
  | TestCreation => TestCreation | Testing => Testing | AIReview => AIReview
  | Finalized => Finalized | Completed => Completed | Failed => Failed
  | Cancelled => Cancelled
  | _ => Planning
  end.

(** Case 3 of the effective-status rule: the image of [workflow_status]. *)
Definition workflow_phase_map (ws : DevelopmentWorkflowStatus) : TaskStatus :=
  match ws with
  | NotStarted => Planning | WPlanning => Planning
  | WInImplementation => Implementation | WTestCreation => TestCreation
  | WTesting => Testing | WAIReview => AIReview | WCompleted => Completed
  | WFailed => Failed
  end.

(** ** C7: readiness *)

(** A dependency condition against a recorded result, as the spec words
    it; a [Custom] condition is never met. *)
Definition condition_holds (c : DependencyCondition) (r : TaskResult) : Prop :=
  match c, r with
  | CCompletion, _ => True
  | CSuccess, RSuccess _ _ _ => True
  | CFailure, RFailure _ _ _ => True
  | _, _ => False
  end.

Definition dep_satisfied (c : gmap Uuid TaskResult) (d : Dependency) : Prop :=
  exists r, c !! dep_task_id d = Some r /\ condition_holds (condition d) r.

(** The readiness rule of property P6: only required dependencies count. *)
Definition ready_required (t : Task) (c : gmap Uuid TaskResult) : Prop :=
  Forall (fun d => required d = true -> dep_satisfied c d) (dependencies t).

(** ** C8: phase history and [current_phase] *)

Definition phase_agree (t : Task) : Prop :=
  match last (phases t) with
  | Some p => phase p = current_phase t
  | None => False
  end.

Definition adv_sample : Task :=
  mk_task 1 [] Testing [sample_phase Planning; sample_phase Testing] 3 0 None.

Definition planning_sample : Task := mk_task 1 [] Planning [sample_phase Planning] 3 0 None.

Definition adv_sample_after : Task :=
  with_state adv_sample AIReview
    [sample_phase Planning; close_phase 4 (sample_phase Testing);
     new_phase AIReview 4] AIReview 4.

(** ** C9: the review counter *)

Definition sample_review : AIReview_ :=
  {| rv_model_name := "m"; rv_review_result := "ok"; rv_score := 9 # 10;
     rv_suggestions := []; rv_approved := true; rv_reviewed_at := 0 |}.

Definition sample_report : AIDevelopmentReview :=
  {| dr_model_name := "m"; dr_review_type := CodeQuality; dr_content := "ok";
     dr_score := 9 # 10; dr_approved := true; dr_suggestions := [];
     dr_reviewed_at := 0 |}.

Definition reviews_agree (t : Task) : Prop :=
  match development_workflow t with
  | Some w => ai_reviews_completed t = Z.of_nat (length (ai_review_reports w))
  | None => True
  end.

(** ** C5: test coverage is stored without a range check *)

Definition coverage_server : Server :=
  with_tasks sample_server
    {[1%N := mk_task 1 [] Testing [sample_phase Testing] 3 0 (Some fresh_workflow)]}.

Definition stored_coverage (srv : Server) (tid : Uuid) : option Q :=
  match tasks srv !! tid with
  | Some t =>
      match development_workflow t with
      | Some w => test_coverage_percentage w
      | None => None
      end
  | None => None
  end.

(** ** C4: in-memory map and store *)




Definition submit_sample : Task := mk_task 1 [] Planning [sample_phase Planning] 3 0
                                     (Some fresh_workflow).

(** ** C6: listing with filters *)

(** The lowercase filter names other than "implementation", with the
    status each one selects; compared exactly. *)
Definition exact_status_name (s : string) : option TaskStatus :=
  if String.eqb s "planning" then Some Planning
  else if String.eqb s "pending" then Some Pending
  else if String.eqb s "running" then Some Running
  else if String.eqb s "completed" then Some Completed
  else if String.eqb s "failed" then Some Failed
  else if String.eqb s "cancelled" then Some Cancelled
  else if String.eqb s "implementation" then None
  else if String.eqb s "testcreation" then Some TestCreation
  else if String.eqb s "testing" then Some Testing
  else if String.eqb s "aireview" then Some AIReview
  else None.

Definition planning_task : Task := mk_task 1 [] Planning [sample_phase Planning] 3 0 None.

Definition impl_task : Task :=
  mk_task 2 [] Implementation [sample_phase Implementation] 3 0
    (Some {| technical_documentation_path := None; test_coverage_percentage := None;
             ai_review_reports := []; workflow_status := WInImplementation;
             wf_started_at := None; wf_completed_at := None |}).

Definition listing_server : Server :=
  with_tasks sample_server {[1%N := planning_task; 2%N := impl_task]}.

(** ** C3: correctness of the workflow cycle check *)

(** The dependency graph of the claim: an edge from every embedded task's
    id to each id in its [dependencies]. *)
Definition wf_edge (ts : list Task) (u v : Uuid) : Prop :=
  exists t, t ∈ ts /\ id t = u /\ v ∈ dep_ids t.

Definition has_dependency_cycle (ts : list Task) : Prop :=
  exists x, tc (wf_edge ts) x x.

(** The graph [has_cycle] walks: the successors of [u] are the
    dependencies of the first task with id [u]. *)
Definition dfs_edge (ts : list Task) (u v : Uuid) : Prop :=
  exists t, find_task ts u = Some t /\ v ∈ dep_ids t.

(** White nodes are not visited, grey ones are on the recursion stack,
    black ones are finished. *)
Definition black (V R : gset Uuid) (x : Uuid) : Prop := x ∈ V /\ x ∉ R.

(** Finished nodes only reach finished nodes and lie on no cycle. *)
Definition dfs_inv (ts : list Task) (V R : gset Uuid) : Prop :=
  R ⊆ V /\
  forall b, black V R b ->
    (forall x, rtc (dfs_edge ts) b x -> black V R x) /\ ~ tc (dfs_edge ts) b b.

(** What a recursive call of [has_cycle] guarantees, for a white node
    reachable from every grey one. *)
Definition hc_spec (ts : list Task)
    (hc : Uuid -> gset Uuid -> gset Uuid -> bool * gset Uuid * gset Uuid)
    (fuel' : nat) : Prop :=
  forall v V R, v ∉ V -> v ∈ node_universe ts ->
    (size (node_universe ts ∖ V) < fuel')%nat ->
    dfs_inv ts V R -> (forall r, r ∈ R -> rtc (dfs_edge ts) r v) ->
    match hc v V R with
    | (true, _, _) => exists x, tc (dfs_edge ts) x x
    | (false, V', R') => R' = R /\ V ⊆ V' /\ v ∈ V' /\ dfs_inv ts V' R
    end.

(** The workflow of scenario S3: A (id 1) depends on B (id 2) and back. *)
Definition s3_workflow : Workflow :=
  mk_workflow
    [mk_task 1 [mk_dep 2 CSuccess true] Planning [] 3 0 None;
     mk_task 2 [mk_dep 1 CSuccess true] Planning [] 3 0 None].

(** Two embedded tasks share id 1; the second depends on id 1. *)
Definition duplicate_id_workflow : Workflow :=
  mk_workflow
    [mk_task 1 [] Planning [] 3 0 None;
     mk_task 1 [mk_dep 1 CSuccess true] Planning [] 3 0 None].

(** ** Further task operations (core.rs, [impl Task]) *)

(** [Task::set_result]: the status follows the result's variant. *)
Definition set_result (now : Z) (t : Task) (r : TaskResult) : Task :=
  with_status_result t
    (match r with
     | RSuccess _ _ _ => Completed
     | RFailure _ _ _ => Failed
     | RCancelled _ => Cancelled
     end) (Some r) now.

Definition with_dependencies (t : Task) (ds : list Dependency) (now : Z) : Task :=
  {| id := id t; name := name t; command := command t;
     description := description t; project := project t;
     priority := priority t; project_id := project_id t;
     dependencies := ds; created_at := created_at t;
     updated_at := now; status := status t; result := result t;
     phases := phases t; current_phase := current_phase t;
     ai_reviews_required := ai_reviews_required t;
     ai_reviews_completed := ai_reviews_completed t;
     development_workflow := development_workflow t |}.

(** [Task::add_dependency] *)
Definition add_dependency (now : Z) (t : Task) (task_id : Uuid)
    (task_name : option string) (c : DependencyCondition) (req : bool) : Task :=
  with_dependencies t
    (dependencies t ++
     [{| dep_task_id := task_id; dep_task_name := task_name; condition := c;
         required := req; correlation_id := None |}]) now.

(** [Task::add_correlated_dependency] *)
Definition add_correlated_dependency (now : Z) (t : Task) (task_id : Uuid)
    (task_name : option string) (c : DependencyCondition) (req : bool)
    (cid : string) : Task :=
  with_dependencies t
    (dependencies t ++
     [{| dep_task_id := task_id; dep_task_name := task_name; condition := c;
         required := req; correlation_id := Some cid |}]) now.

(** [Task::get_dependencies_by_correlation]:
    [dep.correlation_id.as_ref().map_or(false, |id| id == correlation_id)]. *)
Definition get_dependencies_by_correlation (t : Task) (cid : string)
    : list Dependency :=
  filter (fun d => correlation_id d = Some cid) (dependencies t).

(** [Task::is_in_development] *)
Definition is_in_development (t : Task) : bool :=
  match status t with
  | AnalysisAndDocumentation | InDiscussion | InImplementation | InReview
  | InTesting => true
  | _ => false
  end.

(** [Task::is_ready_for_execution] *)
Definition is_ready_for_execution (t : Task) : bool :=
  match status t with
  | Pending | WaitingForDependencies => true
  | _ => false
  end.

(** [Task::advance_development_phase]: the new task and the returned flag. *)
Definition advance_development_phase (now : Z) (t : Task) : Task * bool :=
  match status t with
  | AnalysisAndDocumentation => (with_status_result t InDiscussion (result t) now, true)
  | InDiscussion => (with_status_result t InImplementation (result t) now, true)
  | InImplementation => (with_status_result t InReview (result t) now, true)
  | InReview => (with_status_result t InTesting (result t) now, true)
  | InTesting => (with_status_result t Pending (result t) now, true)
  | _ => (t, false)
  end.

(** [n] successive calls of [advance_development_phase]. *)
Fixpoint advance_development_phase_n (n : nat) (now : Z) (t : Task) : Task :=
  match n with
  | O => t
  | S n' => advance_development_phase_n n' now (advance_development_phase now t).1
  end.

(** [n] successive calls of [advance_phase], stopping at the first error. *)
Fixpoint advance_phase_n (n : nat) (now : Z) (t : Task) : Result Task string :=
  match n with
  | O => Ok t
  | S n' =>
      match advance_phase now t with
      | Ok t' => advance_phase_n n' now t'
      | Err e => Err e
      end
  end.

(** ** Projects (core.rs, [impl Project]) *)

Definition with_project_tags (p : Project) (tags : list string) (now : Z) : Project :=
  {| p_id := p_id p; p_name := p_name p; p_description := p_description p;
     p_status := p_status p; p_created_at := p_created_at p;
     p_updated_at := now; p_tags := tags |}.

(** [Project::add_tag]: nothing changes when the tag is already there. *)
Definition add_tag (now : Z) (p : Project) (tag : string) : Project :=
  if bool_decide (tag ∈ p_tags p) then p
  else with_project_tags p (p_tags p ++ [tag]) now.

(** [Project::remove_tag]: [self.tags.retain(|t| t != tag)]. *)
Definition remove_tag (now : Z) (p : Project) (tag : string) : Project :=
  with_project_tags p (filter (fun x => x <> tag) (p_tags p)) now.

(** ** Workflows (core.rs, [impl Workflow]) *)

(** [Workflow::add_task] *)
Definition workflow_add_task (now : Z) (w : Workflow) (t : Task) : Workflow :=
  {| w_id := w_id w; w_name := w_name w; w_description := w_description w;
     w_tasks := w_tasks w ++ [t]; w_dependencies := w_dependencies w;
     w_created_at := w_created_at w; w_updated_at := now;
     w_status := w_status w |}.

(** [Workflow::get_ready_tasks] *)
Definition get_ready_tasks (w : Workflow) (completed_tasks : gmap Uuid TaskResult)
    : list Task :=
  filter (fun t => is_ready t completed_tasks = true) (w_tasks w).

(** [CreateTaskRequest::to_task], on the fields the model keeps; the new
    id and the clock are inputs. *)
Record CreateTaskRequest := {
  rq_name : string;
  rq_command : string;
  rq_description : string;
  rq_project : option string;
  rq_priority : TaskPriority;
  rq_project_id : option Uuid;
  rq_ai_reviews_required : option Z }.

Definition default_development_workflow : option DevelopmentWorkflow :=
  Some {| technical_documentation_path := None; test_coverage_percentage := None;
          ai_review_reports := []; workflow_status := NotStarted;
          wf_started_at := None; wf_completed_at := None |}.

Definition request_to_task (new_id : Uuid) (now : Z) (rq : CreateTaskRequest) : Task :=
  {| id := new_id; name := rq_name rq; command := rq_command rq;
     description := rq_description rq; project := rq_project rq;
     priority := rq_priority rq; project_id := rq_project_id rq;
     dependencies := []; created_at := now; updated_at := now;
     status := Planning; result := None; phases := [new_phase Planning now];
     current_phase := Planning;
     ai_reviews_required := default 3 (rq_ai_reviews_required rq);
     ai_reviews_completed := 0;
     development_workflow := default_development_workflow |}.

(** ** Further server operations (server.rs, [impl TaskQueueServer]) *)

(** [StorageEngine::store_project] and [delete_task]. *)
Definition store_project (io : StoreOutcome) (st : Storage) (p : Project)
    : Storage * Result unit TaskQueueError :=
  write_tree io st
    {| tasks_tree := tasks_tree st; workflows_tree := workflows_tree st;
       projects_tree := <[p_id p := p]> (projects_tree st) |}.

Definition storage_delete_task (io : StoreOutcome) (st : Storage) (task_id : Uuid)
    : Storage * Result unit TaskQueueError :=
  write_tree io st
    {| tasks_tree := delete task_id (tasks_tree st);
       workflows_tree := workflows_tree st; projects_tree := projects_tree st |}.

(** The tails [self.storage.store_workflow(w).await?; Ok(..)] and
    [self.storage.store_project(p).await?; Ok(..)]. *)
Definition persist_workflow {A} (io : StoreOutcome) (srv : Server) (w : Workflow) (a : A)
    : Op A :=
  match store_workflow io (storage srv) w with
  | (st, Ok _) => (with_storage srv st, Ok a)
  | (st, Err e) => (with_storage srv st, Err e)
  end.

Definition persist_project {A} (io : StoreOutcome) (srv : Server) (p : Project) (a : A)
    : Op A :=
  match store_project io (storage srv) p with
  | (st, Ok _) => (with_storage srv st, Ok a)
  | (st, Err e) => (with_storage srv st, Err e)
  end.

(** [get_task], [get_task_status], [get_task_result] *)
Definition get_task (srv : Server) (task_id : Uuid) : Result Task TaskQueueError :=
  match tasks srv !! task_id with
  | Some t => Ok t
  | None => Err (TaskNotFound task_id)
  end.

Definition get_task_status (srv : Server) (task_id : Uuid)
    : Result TaskStatus TaskQueueError :=
  match get_task srv task_id with
  | Ok t => Ok (status t)
  | Err e => Err e
  end.

Definition get_task_result (srv : Server) (task_id : Uuid)
    : Result (option TaskResult) TaskQueueError :=
  match get_task srv task_id with
  | Ok t => Ok (result t)
  | Err e => Err e
  end.

(** [get_workflow], [get_workflow_status] *)
Definition get_workflow (srv : Server) (workflow_id : Uuid)
    : Result Workflow TaskQueueError :=
  match workflows srv !! workflow_id with
  | Some w => Ok w
  | None => Err (WorkflowNotFound workflow_id)
  end.

Definition get_workflow_status (srv : Server) (workflow_id : Uuid)
    : Result WorkflowStatus TaskQueueError :=
  match get_workflow srv workflow_id with
  | Ok w => Ok (w_status w)
  | Err e => Err e
  end.

(** [list_workflows] answers [self.storage.list_workflows().await]: every
    workflow of the store's tree (in the tree's order, here the map's).
    [iter_ok] is whether the sled iteration succeeds; a failing [result?]
    is a [StorageError].  Stored values are the entities they serialise,
    so decoding them does not fail. *)
Definition list_workflows (iter_ok : bool) (srv : Server)
    : Result (list Workflow) TaskQueueError :=
  if iter_ok then Ok (map_to_list (workflows_tree (storage srv))).*2
  else Err StorageError.

(** [get_project]; [get_tasks_by_project] (in map order). *)
Definition get_project (srv : Server) (project_id : Uuid) : option Project :=
  projects srv !! project_id.

Definition get_tasks_by_project (srv : Server) (pid : Uuid) : list Task :=
  filter (fun t => project_id t = Some pid) ((map_to_list (tasks srv)).*2).

(** [create_project]: the fresh [Uuid::new_v4()] and the clock are inputs;
    the [.tasks] file written afterwards is best-effort. *)
Definition create_project (io : StoreOutcome) (now : Z) (srv : Server) (new_id : Uuid)
    (name : string) (description : option string) : Op Uuid :=
  let p := {| p_id := new_id; p_name := name; p_description := description;
              p_status := PPlanning; p_created_at := now; p_updated_at := now;
              p_tags := [] |} in
  let srv1 := with_projects srv (<[new_id := p]> (projects srv)) in
  persist_project io srv1 p new_id.

(** [ProjectUpdate] and [update_project] *)
Record ProjectUpdate := {
  pu_name : option string;
  pu_description : option string;
  pu_status : option ProjectStatus;
  pu_tags : option (list string) }.

Definition apply_project_update (now : Z) (p : Project) (u : ProjectUpdate)
    : Project :=
  {| p_id := p_id p;
     p_name := default (p_name p) (pu_name u);
     p_description :=
       match pu_description u with Some d => Some d | None => p_description p end;
     p_status := default (p_status p) (pu_status u);
     p_created_at := p_created_at p; p_updated_at := now;
     p_tags := default (p_tags p) (pu_tags u) |}.

Definition update_project (io : StoreOutcome) (now : Z) (srv : Server) (pid : Uuid)
    (u : ProjectUpdate) : Op unit :=
  match projects srv !! pid with
  | Some p =>
      let p' := apply_project_update now p u in
      let srv1 := with_projects srv (<[pid := p']> (projects srv)) in
      persist_project io srv1 p' tt
  | None => (srv, Err (ProjectNotFound pid))
  end.

(** [delete_task]: removed from memory, then from the store. *)
Definition delete_task (io : StoreOutcome) (srv : Server) (task_id : Uuid) : Op unit :=
  match tasks srv !! task_id with
  | Some _ =>
      let srv1 := with_tasks srv (delete task_id (tasks srv)) in
      match storage_delete_task io (storage srv1) task_id with
      | (st, r) => (with_storage srv1 st, r)
      end
  | None => (srv, Err (TaskNotFound task_id))
  end.

(** [add_task_dependency] *)
Definition add_task_dependency (io : StoreOutcome) (now : Z) (srv : Server)
    (task_id dependency_task_id : Uuid) (task_name : option string)
    (c : DependencyCondition) (req : bool) (cid : option string) : Op unit :=
  match tasks srv !! task_id with
  | Some t =>
      let t' :=
        match cid with
        | Some c' => add_correlated_dependency now t dependency_task_id task_name c req c'
        | None => add_dependency now t dependency_task_id task_name c req
        end in
      let srv1 := with_tasks srv (<[task_id := t']> (tasks srv)) in
      persist_task io srv1 t' tt
  | None => (srv, Err (TaskNotFound task_id))
  end.

(** [get_task_dependencies] *)
Definition get_task_dependencies (srv : Server) (task_id : Uuid)
    : Result (list Dependency) TaskQueueError :=
  match tasks srv !! task_id with
  | Some t => Ok (dependencies t)
  | None => Err (TaskNotFound task_id)
  end.

(** [get_task_correlations]: [filter_map(|dep| dep.correlation_id.clone())]. *)
Definition get_task_correlations (srv : Server) (task_id : Uuid)
    : Result (list string) TaskQueueError :=
  match tasks srv !! task_id with
  | Some t => Ok (omap correlation_id (dependencies t))
  | None => Err (TaskNotFound task_id)
  end.

(** [update_task]: the fields are written in place in source order; a
    refused status change returns early, after the name, command,
    description and priority writes and before the [project_id] write. *)
Definition with_basics (t : Task) (nm cmd desc : string) (prio : TaskPriority)
    : Task :=
  {| id := id t; name := nm; command := cmd; description := desc;
     project := project t; priority := prio; project_id := project_id t;
     dependencies := dependencies t; created_at := created_at t;
     updated_at := updated_at t; status := status t; result := result t;
     phases := phases t; current_phase := current_phase t;
     ai_reviews_required := ai_reviews_required t;
     ai_reviews_completed := ai_reviews_completed t;
     development_workflow := development_workflow t |}.

Definition with_project_id_at (t : Task) (p : option Uuid) (now : Z) : Task :=
  {| id := id t; name := name t; command := command t;
     description := description t; project := project t;
     priority := priority t; project_id := p;
     dependencies := dependencies t; created_at := created_at t;
     updated_at := now; status := status t; result := result t;
     phases := phases t; current_phase := current_phase t;
     ai_reviews_required := ai_reviews_required t;
     ai_reviews_completed := ai_reviews_completed t;
     development_workflow := development_workflow t |}.

Definition update_task (io : StoreOutcome) (now : Z) (srv : Server) (task_id : Uuid)
    (nm cmd desc : option string) (prio : option TaskPriority)
    (st : option TaskStatus) (pid : option (option Uuid)) : Op Task :=
  match tasks srv !! task_id with
  | Some t =>
      let t1 := with_basics t (default (name t) nm) (default (command t) cmd)
                  (default (description t) desc) (default (priority t) prio) in
      match match st with Some s => set_status now t1 s | None => Ok t1 end with
      | Err msg => (with_tasks srv (<[task_id := t1]> (tasks srv)), Err (error_from_string msg))
      | Ok t2 =>
          let t3 := with_project_id_at t2 (default (project_id t2) pid) now in
          persist_task io (with_tasks srv (<[task_id := t3]> (tasks srv))) t3 t3
      end
  | None => (srv, Err (TaskNotFound task_id))
  end.

(** [upsert_task].  [entries] is the iteration order of the task map
    ([tasks.iter()]), which the source leaves to the [HashMap]; the new id
    ([Uuid::new_v4()]) and the clock are inputs.  [technical_specs] and
    [acceptance_criteria] are fields the model does not keep. *)
Definition with_upsert (t : Task) (cmd desc : string) (prio : TaskPriority)
    (pid : Uuid) (now : Z) : Task :=
  {| id := id t; name := name t; command := cmd; description := desc;
     project := project t; priority := prio; project_id := Some pid;
     dependencies := dependencies t; created_at := created_at t;
     updated_at := now; status := status t; result := result t;
     phases := phases t; current_phase := current_phase t;
     ai_reviews_required := ai_reviews_required t;
     ai_reviews_completed := ai_reviews_completed t;
     development_workflow := development_workflow t |}.

Definition upsert_new_task (new_id : Uuid) (now : Z) (nm cmd desc : string)
    (pid : Uuid) (prio : TaskPriority) : Task :=
  {| id := new_id; name := nm; command := cmd; description := desc;
     project := None; priority := prio; project_id := Some pid;
     dependencies := []; created_at := now; updated_at := now;
     status := Planning; result := None; phases := [new_phase Planning now];
     current_phase := Planning; ai_reviews_required := 3;
     ai_reviews_completed := 0;
     development_workflow :=
       Some {| technical_documentation_path := None;
               test_coverage_percentage := None; ai_review_reports := [];
               workflow_status := NotStarted; wf_started_at := Some now;
               wf_completed_at := None |} |}.

Definition upsert_task (io : StoreOutcome) (now : Z) (srv : Server)
    (entries : list (Uuid * Task)) (new_id : Uuid) (nm cmd desc : string)
    (pid : Uuid) (prio : TaskPriority) : Op Task :=
  match List.find (fun kv => String.eqb (name kv.2) nm) entries with
  | Some (eid, _) =>
      match tasks srv !! eid with
      | Some t =>
          let t1 := with_upsert t cmd desc prio pid now in
          let srv1 := with_tasks srv (<[eid := t1]> (tasks srv)) in
          match validate_task srv1 t1 with
          | Err e => (srv1, Err e)
          | Ok _ => persist_task io srv1 t1 t1
          end
      (* [get_mut(&existing_id).unwrap()] on an id taken from the map *)
      | None => (srv, Err (TaskNotFound eid))
      end
  | None =>
      let t := upsert_new_task new_id now nm cmd desc pid prio in
      match validate_task srv t with
      | Err e => (srv, Err e)
      | Ok _ => persist_task io (with_tasks srv (<[new_id := t]> (tasks srv))) t t
      end
  end.

(** [cancel_workflow], [approve_workflow], [update_workflow_status] *)
Definition with_w_status (w : Workflow) (s : WorkflowStatus) (now : Z) : Workflow :=
  {| w_id := w_id w; w_name := w_name w; w_description := w_description w;
     w_tasks := w_tasks w; w_dependencies := w_dependencies w;
     w_created_at := w_created_at w; w_updated_at := now; w_status := s |}.

Definition cancel_workflow (io : StoreOutcome) (now : Z) (srv : Server)
    (workflow_id : Uuid) (reason : string) : Op unit :=
  match workflows srv !! workflow_id with
  | Some w =>
      let w' := with_w_status w WfCancelled now in
      persist_workflow io (with_workflows srv (<[workflow_id := w']> (workflows srv))) w' tt
  | None => (srv, Err (WorkflowNotFound workflow_id))
  end.

Definition approve_workflow (io : StoreOutcome) (now : Z) (srv : Server)
    (workflow_id : Uuid) (message : string) : Op unit :=
  match workflows srv !! workflow_id with
  | Some w =>
      let w' := with_w_status w WfRunning now in
      persist_workflow io (with_workflows srv (<[workflow_id := w']> (workflows srv))) w' tt
  | None => (srv, Err (WorkflowNotFound workflow_id))
  end.

Definition update_workflow_status (io : StoreOutcome) (now : Z) (srv : Server)
    (workflow_id : Uuid) (s : WorkflowStatus) (message : string) : Op unit :=
  match workflows srv !! workflow_id with
  | Some w =>
      let w' := with_w_status w s now in
      persist_workflow io (with_workflows srv (<[workflow_id := w']> (workflows srv))) w' tt
  | None => (srv, Err (WorkflowNotFound workflow_id))
  end.

(** [advance_development_workflow] *)
Definition with_dev_status (w : DevelopmentWorkflow) (s : DevelopmentWorkflowStatus)
    (started completed : option Z) : DevelopmentWorkflow :=
  {| technical_documentation_path := technical_documentation_path w;
     test_coverage_percentage := test_coverage_percentage w;
     ai_review_reports := ai_review_reports w; workflow_status := s;
     wf_started_at := started; wf_completed_at := completed |}.

Definition next_dev_workflow (now : Z) (w : DevelopmentWorkflow)
    : DevelopmentWorkflow * DevelopmentWorkflowStatus :=
  match workflow_status w with
  | NotStarted => (with_dev_status w WPlanning (Some now) (wf_completed_at w), WPlanning)
  | WPlanning =>
      (with_dev_status w WInImplementation (wf_started_at w) (wf_completed_at w),
       WInImplementation)
  | WInImplementation =>
      (with_dev_status w WTestCreation (wf_started_at w) (wf_completed_at w), WTestCreation)
  | WTestCreation =>
      (with_dev_status w WTesting (wf_started_at w) (wf_completed_at w), WTesting)
  | WTesting =>
      (with_dev_status w WAIReview (wf_started_at w) (wf_completed_at w), WAIReview)
  | WAIReview => (with_dev_status w WCompleted (wf_started_at w) (Some now), WCompleted)
  | s => (with_dev_status w s (wf_started_at w) (wf_completed_at w), s)
  end.

(** The status [next_dev_workflow] moves to. *)
Definition next_dev_status (s : DevelopmentWorkflowStatus) : DevelopmentWorkflowStatus :=
  match s with
  | NotStarted => WPlanning
  | WPlanning => WInImplementation
  | WInImplementation => WTestCreation
  | WTestCreation => WTesting
  | WTesting => WAIReview
  | WAIReview => WCompleted
  | s => s
  end.

Definition advance_development_workflow (io : StoreOutcome) (now : Z) (srv : Server)
    (task_id : Uuid) : Op DevelopmentWorkflowStatus :=
  match tasks srv !! task_id with
  | Some t =>
      match development_workflow t with
      | Some w =>
          match next_dev_workflow now w with
          | (w', next) =>
              let t' := with_workflow t (Some w') now in
              persist_task io (with_tasks srv (<[task_id := t']> (tasks srv))) t' next
          end
      | None =>
          let w' := {| technical_documentation_path := None;
                       test_coverage_percentage := None; ai_review_reports := [];
                       workflow_status := WPlanning; wf_started_at := Some now;
                       wf_completed_at := None |} in
          let t' := with_workflow t (Some w') now in
          persist_task io (with_tasks srv (<[task_id := t']> (tasks srv))) t' WPlanning
      end
  | None => (srv, Err (TaskNotFound task_id))
  end.

(** [n] successive calls of [advance_development_workflow] with a working
    store. *)
Fixpoint advance_development_workflow_n (n : nat) (now : Z) (srv : Server)
    (task_id : Uuid) : Server :=
  match n with
  | O => srv
  | S n' =>
      advance_development_workflow_n n' now
        (advance_development_workflow StoreOk now srv task_id).1 task_id
  end.

(** The task as one call of [advance_development_workflow] leaves it in
    memory. *)
Definition dev_workflow_next_task (now : Z) (t : Task) : Task :=
  match development_workflow t with
  | Some w => with_workflow t (Some (next_dev_workflow now w).1) now
  | None =>
      with_workflow t
        (Some {| technical_documentation_path := None;
                 test_coverage_percentage := None; ai_review_reports := [];
                 workflow_status := WPlanning; wf_started_at := Some now;
                 wf_completed_at := None |}) now
  end.

(** [set_technical_documentation] *)
Definition set_doc_path (w : DevelopmentWorkflow) (path : string) : DevelopmentWorkflow :=
  {| technical_documentation_path := Some path;
     test_coverage_percentage := test_coverage_percentage w;
     ai_review_reports := ai_review_reports w;
     workflow_status := workflow_status w;
     wf_started_at := wf_started_at w; wf_completed_at := wf_completed_at w |}.

Definition set_technical_documentation (io : StoreOutcome) (now : Z) (srv : Server)
    (task_id : Uuid) (doc_path : string) : Op unit :=
  match tasks srv !! task_id with
  | Some t =>
      match development_workflow t with
      | Some w =>
          let t' := with_workflow t (Some (set_doc_path w doc_path)) now in
          persist_task io (with_tasks srv (<[task_id := t']> (tasks srv))) t' tt
      | None =>
          (srv, Err (ValidationError "Task has no development workflow initialized"))
      end
  | None => (srv, Err (TaskNotFound task_id))
  end.

(** ** HTTP handlers (server.rs); a path id that does not parse is answered
    with BAD_REQUEST before the server is called, so the handlers take the
    parsed id.  A JSON field is given as the result of
    [payload.get(..).and_then(|v| v.as_str())]. *)
Inductive StatusCode := OK | BAD_REQUEST | NOT_FOUND | INTERNAL_SERVER_ERROR.

(** The status names of the [set_task_status] handler. *)
Definition parse_set_status (s : string) : option TaskStatus :=
  if String.eqb s "Planning" then Some Planning
  else if String.eqb s "Implementation" then Some Implementation
  else if String.eqb s "TestCreation" then Some TestCreation
  else if String.eqb s "Testing" then Some Testing
  else if String.eqb s "AIReview" then Some AIReview
  else if String.eqb s "Finalized" then Some Finalized
  else if String.eqb s "Cancelled" then Some Cancelled
  else if String.eqb s "Failed" then Some Failed
  else None.

Definition http_set_task_status (io : StoreOutcome) (now : Z) (srv : Server)
    (task_id : Uuid) (status_field : option string) : Server * StatusCode :=
  match status_field with
  | None => (srv, BAD_REQUEST)
  | Some s =>
      match parse_set_status s with
      | None => (srv, BAD_REQUEST)
      | Some st =>
          match set_task_status io now srv task_id st with
          | (srv', Ok _) => (srv', OK)
          | (srv', Err _) => (srv', BAD_REQUEST)
          end
      end
  end.

(** The priority and status names of the [update_task] handler. *)
Definition parse_priority (s : string) : option TaskPriority :=
  if String.eqb s "Low" then Some Low
  else if String.eqb s "Normal" then Some Normal
  else if String.eqb s "High" then Some High
  else if String.eqb s "Critical" then Some Critical
  else None.

Definition parse_update_status (s : string) : option TaskStatus :=
  if String.eqb s "Planning" then Some Planning
  else if String.eqb s "Implementation" then Some Implementation
  else if String.eqb s "TestCreation" then Some TestCreation
  else if String.eqb s "Testing" then Some Testing
  else if String.eqb s "AIReview" then Some AIReview
  else if String.eqb s "Finalized" then Some Finalized
  else if String.eqb s "Pending" then Some Pending
  else if String.eqb s "Running" then Some Running
  else if String.eqb s "Completed" then Some Completed
  else if String.eqb s "Failed" then Some Failed
  else if String.eqb s "Cancelled" then Some Cancelled
  else None.

(** [pid] is the handler's [project_id] extraction: absent or unparsable
    gives [None], JSON null gives [Some None]. *)
Definition http_update_task (io : StoreOutcome) (now : Z) (srv : Server) (task_id : Uuid)
    (nm cmd desc prio st : option string) (pid : option (option Uuid))
    : Server * StatusCode :=
  match update_task io now srv task_id nm cmd desc (prio ≫= parse_priority)
          (st ≫= parse_update_status) pid with
  | (srv', Ok _) => (srv', OK)
  | (srv', Err _) => (srv', NOT_FOUND)
  end.

(** The [submit_task] handler: [task_request.to_task()], then submit. *)
Definition http_submit_task (io : StoreOutcome) (now : Z) (srv : Server) (new_id : Uuid)
    (rq : CreateTaskRequest) : Server * StatusCode :=
  match submit_task io srv (request_to_task new_id now rq) with
  | (srv', Ok _) => (srv', OK)
  | (srv', Err _) => (srv', BAD_REQUEST)
  end.

(** * Proofs *)

Example s3_circular :
  validate_workflow (mk_workflow
    [mk_task 1 [mk_dep 2 CSuccess true] Planning [] 3 0 None;
     mk_task 2 [mk_dep 1 CSuccess true] Planning [] 3 0 None])
  = Err (CircularDependency "Circular dependency detected in workflow").
Proof. vm_compute. reflexivity. Qed.

Example chain_ok :
  validate_workflow (mk_workflow
    [mk_task 1 [mk_dep 2 CSuccess true] Planning [] 3 0 None;
     mk_task 2 [mk_dep 3 CSuccess true] Planning [] 3 0 None;
     mk_task 3 [] Planning [] 3 0 None]) = Ok tt.
Proof. vm_compute. reflexivity. Qed.

(** ** Lemmas about the phase state machine *)

Lemma can_transition_to_spec (t : Task) (s : TaskStatus) :
  can_transition_to t s = true <->
  legal_transition (current_phase t) s (ai_reviews_completed t) (ai_reviews_required t).
Proof.
  unfold can_transition_to, legal_transition.
  destruct (current_phase t), s; cbn;
    rewrite ?Z.leb_le, ?bool_decide_eq_true;
    intuition congruence.
Qed.

Lemma set_status_ok_iff (now : Z) (t : Task) (s : TaskStatus) :
  (exists t', set_status now t s = Ok t') <-> can_transition_to t s = true.
Proof.
  unfold set_status. destruct (can_transition_to t s); cbn.
  - split; [done | eauto].
  - split; [intros [? H]; discriminate H | discriminate].
Qed.

Lemma set_status_err (now : Z) (t : Task) (s : TaskStatus) :
  can_transition_to t s = false ->
  set_status now t s =
  Err ("Invalid status transition from " +:+ TaskStatus_debug (current_phase t)
       +:+ " to " +:+ TaskStatus_debug s)%string.
Proof. unfold set_status. intros ->. reflexivity. Qed.

(** ** The common store-writing tail *)

Lemma persist_task_tasks {A} (io : StoreOutcome) (srv : Server) (t : Task) (a : A) :
  tasks (persist_task io srv t a).1 = tasks srv.
Proof. unfold persist_task, store_task. by destruct io. Qed.

Lemma persist_task_result {A} (io : StoreOutcome) (srv : Server) (t : Task) (a : A) :
  (persist_task io srv t a).2 = if store_ok io then Ok a else Err StorageError.
Proof. unfold persist_task, store_task. by destruct io. Qed.

Lemma persist_task_true {A} (srv : Server) (t : Task) (a : A) :
  persist_task StoreOk srv t a
  = (with_storage srv {| tasks_tree := <[id t := t]> (tasks_tree (storage srv));
                         workflows_tree := workflows_tree (storage srv);
                         projects_tree := projects_tree (storage srv) |}, Ok a).
Proof. reflexivity. Qed.

(** What a task write leaves in the task tree. *)
Lemma persist_task_tree {A} (io : StoreOutcome) (srv : Server) (t : Task) (a : A) :
  tasks_tree (storage (persist_task io srv t a).1)
  = if write_applied io then <[id t := t]> (tasks_tree (storage srv))
    else tasks_tree (storage srv).
Proof. unfold persist_task, store_task. by destruct io. Qed.

(** ** C1: SetStatus succeeds exactly on the legal-transition table *)

(** Claim C1.  On an existing task [t], [set_task_status] succeeds (with a
    working store) exactly when [(current_phase t, s)] is in the table of
    section 4.3, AIReview to Finalized counting only when enough reviews
    are completed; every other pair fails with [InvalidStatusTransition]
    and leaves the server unchanged, whatever the store does. *)
Theorem set_task_status_table (io : StoreOutcome) (now : Z) (srv : Server)
    (tid : Uuid) (t : Task) (s : TaskStatus) :
  tasks srv !! tid = Some t ->
  ((exists srv', set_task_status StoreOk now srv tid s = (srv', Ok tt)) <->
   legal_transition (current_phase t) s (ai_reviews_completed t)
     (ai_reviews_required t)) /\
  (~ legal_transition (current_phase t) s (ai_reviews_completed t)
       (ai_reviews_required t) ->
   exists msg, set_task_status io now srv tid s = (srv, Err (InvalidStatusTransition msg))).
Proof.
  intros Ht. rewrite <- can_transition_to_spec. unfold set_task_status. rewrite Ht.
  split.
  - destruct (can_transition_to t s) eqn:Hc.
    + destruct (proj2 (set_status_ok_iff now t s) Hc) as [t' Ht'].
      rewrite Ht'. unfold persist_task. cbn. split; [done | eauto].
    + rewrite (set_status_err now t s Hc). split; [intros [? H]; discriminate H | done].
  - intros Hn. apply not_true_is_false in Hn.
    rewrite (set_status_err now t s Hn). eexists. reflexivity.
Qed.

Lemma set_task_status_table_witness :
  tasks (with_tasks sample_server {[1%N := mk_task 1 [] AIReview
           [sample_phase AIReview] 3 2 None]}) !! 1%N =
    Some (mk_task 1 [] AIReview [sample_phase AIReview] 3 2 None) /\
  (((exists srv', set_task_status StoreOk 5 (with_tasks sample_server
       {[1%N := mk_task 1 [] AIReview [sample_phase AIReview] 3 2 None]}) 1%N
       Finalized = (srv', Ok tt)) <->
    legal_transition AIReview Finalized 2 3) /\
   (~ legal_transition AIReview Finalized 2 3 ->
    exists msg, set_task_status WriteFails 5 (with_tasks sample_server
       {[1%N := mk_task 1 [] AIReview [sample_phase AIReview] 3 2 None]}) 1%N
       Finalized = (with_tasks sample_server
       {[1%N := mk_task 1 [] AIReview [sample_phase AIReview] 3 2 None]},
       Err (InvalidStatusTransition msg)))).
Proof.
  split; [reflexivity |].
  apply (set_task_status_table WriteFails 5 _ 1%N
           (mk_task 1 [] AIReview [sample_phase AIReview] 3 2 None) Finalized).
  reflexivity.
Defined.

(** ** C2: the effective-status function *)

(** Claim C2.  [get_effective_task_status] is [current_phase] without a
    workflow, the trivial phase mapping of [current_phase] when the workflow
    is [NotStarted], and the image of [workflow_status] otherwise; it reads
    nothing but [current_phase] and the workflow's status. *)
Theorem effective_status_rule (t : Task) :
  (development_workflow t = None ->
   get_effective_task_status t = current_phase t) /\
  (forall w, development_workflow t = Some w -> workflow_status w = NotStarted ->
   get_effective_task_status t = trivial_phase_map (current_phase t)) /\
  (forall w, development_workflow t = Some w -> workflow_status w <> NotStarted ->
   get_effective_task_status t = workflow_phase_map (workflow_status w)) /\
  (forall t2, current_phase t2 = current_phase t ->
   workflow_status <$> development_workflow t2 =
   workflow_status <$> development_workflow t ->
   get_effective_task_status t2 = get_effective_task_status t).
Proof.
  unfold get_effective_task_status. split; [|split; [|split]].
  - intros ->. reflexivity.
  - intros w -> ->. cbn. destruct (current_phase t); reflexivity.
  - intros w -> Hn. rewrite bool_decide_false by done.
    destruct (workflow_status w); done.
  - intros t2 Hc Hw. rewrite Hc.
    destruct (development_workflow t2) as [w2|], (development_workflow t) as [w|];
      cbn in Hw; try discriminate; [|reflexivity].
    injection Hw as Hw. rewrite Hw. reflexivity.
Qed.

Lemma effective_status_rule_witness :
  get_effective_task_status (mk_task 1 [] Implementation [] 3 0
     (Some (set_coverage fresh_workflow 0))) = Implementation /\
  (development_workflow (mk_task 1 [] Implementation [] 3 0 None) = None ->
   get_effective_task_status (mk_task 1 [] Implementation [] 3 0 None) = Implementation).
Proof.
  split; [reflexivity |].
  apply (effective_status_rule (mk_task 1 [] Implementation [] 3 0 None)).
Defined.

(** ** C10: cancellation only touches [status], [result], [updated_at] *)

(** Claim C10.  [cancel_task] on an existing task sets its [status] to
    [Cancelled] and its [result] to [Cancelled{reason}] in the in-memory map
    (whether or not the store write succeeds) and leaves [current_phase],
    the phase history and the attached workflow unchanged, so the effective
    status after cancellation is the one before it. *)
Theorem cancel_task_frame (io : StoreOutcome) (now : Z) (srv : Server) (tid : Uuid)
    (t : Task) (reason : string) :
  tasks srv !! tid = Some t ->
  exists t', tasks (cancel_task io now srv tid reason).1 !! tid = Some t' /\
    status t' = Cancelled /\ result t' = Some (RCancelled reason) /\
    current_phase t' = current_phase t /\ phases t' = phases t /\
    development_workflow t' = development_workflow t /\
    get_effective_task_status t' = get_effective_task_status t.
Proof.
  intros Ht. unfold cancel_task. rewrite Ht, persist_task_tasks. cbn.
  rewrite lookup_insert_eq. eexists; (split; [reflexivity | repeat split]).
Qed.

Lemma cancel_task_frame_witness :
  exists t', tasks (cancel_task StoreOk 9 (with_tasks sample_server
      {[1%N := mk_task 1 [] Testing [sample_phase Testing] 3 0
                 (Some fresh_workflow)]}) 1%N "stop").1 !! 1%N = Some t' /\
    status t' = Cancelled /\ result t' = Some (RCancelled "stop") /\
    current_phase t' = Testing /\ phases t' = [sample_phase Testing] /\
    development_workflow t' = Some fresh_workflow /\
    get_effective_task_status t' = Testing.
Proof.
  apply (cancel_task_frame StoreOk 9 _ 1%N
           (mk_task 1 [] Testing [sample_phase Testing] 3 0 (Some fresh_workflow))).
  reflexivity.
Defined.

(** ** C7: readiness *)

(** Claim C7 does not hold as stated: a task whose only dependency is not
    required and has no recorded result satisfies the P6 rule, yet
    [is_ready] is false, because the [required] flag is never consulted. *)
Lemma is_ready_ignores_required :
  ready_required (mk_task 1 [mk_dep 2 CSuccess false] Planning [] 3 0 None) ∅ /\
  is_ready (mk_task 1 [mk_dep 2 CSuccess false] Planning [] 3 0 None) ∅ = false.
Proof.
  split; [| reflexivity].
  constructor; [cbn; discriminate | constructor].
Qed.

(** Claim C7, as the code has it.  [is_ready c] holds exactly when every
    dependency, required or not, has a recorded result meeting its
    condition (Completion: any result; Success, Failure: that variant;
    Custom: never). *)
Theorem is_ready_all_dependencies (t : Task) (c : gmap Uuid TaskResult) :
  is_ready t c = true <-> Forall (dep_satisfied c) (dependencies t).
Proof.
  unfold is_ready. induction (dependencies t) as [|d ds IH]; cbn.
  - split; [constructor | done].
  - rewrite Forall_cons, <- IH. unfold dep_satisfied.
    destruct (c !! dep_task_id d) as [r|].
    + destruct (condition d), r; cbn;
        split; try (intros H; split; [eexists; split; [reflexivity | exact I] | exact H]);
        try (intros [[? [[= <-] Hc]] ?]; done);
        try (intros [? ?]; done); try discriminate.
    + split; [discriminate | intros [[? [? ?]] ?]; discriminate].
Qed.

(** ** C8: phase history and [current_phase] *)

Lemma complete_last_names (now : Z) (ps : list TaskPhase) :
  map phase (complete_last now ps) = map phase ps.
Proof.
  induction ps as [|p ps IH]; [done|].
  destruct ps as [|q ps]; [done|]. cbn in *. rewrite IH. reflexivity.
Qed.

Lemma last_push (now : Z) (ps : list TaskPhase) (s : TaskStatus) :
  last (complete_last now ps ++ [new_phase s now]) = Some (new_phase s now).
Proof. apply last_snoc. Qed.

(** Claim C8 does not hold as stated: from AIReview with enough reviews,
    the move to Finalized sets [current_phase] to Finalized but appends no
    history entry, so the last entry still names AIReview. *)
Lemma finalized_leaves_last_entry :
  phase_agree (mk_task 1 [] AIReview [sample_phase AIReview] 3 3 None) /\
  exists t', set_status 5 (mk_task 1 [] AIReview [sample_phase AIReview] 3 3 None)
               Finalized = Ok t' /\
    current_phase t' = Finalized /\
    (phase <$> last (phases t')) = Some AIReview.
Proof. split; [reflexivity | eexists; split; [reflexivity | split; reflexivity]]. Qed.

Lemma set_status_phase_agree (now : Z) (t t' : Task) (s : TaskStatus) :
  phase_agree t -> set_status now t s = Ok t' ->
  (s = Finalized -> current_phase t' = Finalized /\
     map phase (phases t') = map phase (phases t)) /\
  (s <> Finalized ->
   (s = Implementation -> current_phase t = AIReview \/ current_phase t = Implementation) ->
   phase_agree t').
Proof.
  unfold phase_agree, set_status. intros Hag Hs.
  destruct (can_transition_to t s); cbn in Hs; [|discriminate].
  injection Hs as <-. cbn. split.
  - intros ->. split; [reflexivity | apply complete_last_names].
  - intros Hnf Himpl.
    destruct s; try (exfalso; apply Hnf; reflexivity); cbn;
      repeat case_bool_decide; rewrite ?last_push; try reflexivity;
      repeat match goal with H : ~ (_ <> _) |- _ => apply dec_stable in H end;
      try (specialize (Himpl eq_refl); destruct Himpl as [Hi | Hi]; [congruence |]);
      destruct (last (phases t)); congruence.
Qed.

(** Claim C8, as the code has it.  Starting from a task whose
    [current_phase] agrees with the last history entry: a successful
    [set_status] to a target other than Finalized keeps the agreement
    (for Implementation: when coming from AIReview or from Implementation
    itself); a transition into Finalized only closes the last entry, whose
    name is kept, and sets [current_phase] to Finalized.  [advance_phase]
    inherits this: from Implementation, TestCreation or Testing it keeps the
    agreement, from AIReview it lands on Finalized without a new entry. *)
Theorem phase_history_agreement (now : Z) (t t' : Task) :
  phase_agree t ->
  (forall s, set_status now t s = Ok t' -> s <> Finalized ->
     (s = Implementation -> current_phase t = AIReview \/ current_phase t = Implementation) ->
     phase_agree t') /\
  (set_status now t Finalized = Ok t' ->
     current_phase t' = Finalized /\ map phase (phases t') = map phase (phases t)) /\
  (advance_phase now t = Ok t' -> current_phase t <> Planning ->
     current_phase t <> AIReview -> phase_agree t') /\
  (advance_phase now t = Ok t' -> current_phase t = AIReview ->
     current_phase t' = Finalized /\ map phase (phases t') = map phase (phases t)).
Proof.
  intros Hag. split; [|split; [|split]].
  - intros s Hs Hnf Hi. exact (proj2 (set_status_phase_agree now t t' s Hag Hs) Hnf Hi).
  - intros Hs. exact (proj1 (set_status_phase_agree now t t' _ Hag Hs) eq_refl).
  - unfold advance_phase. intros Ha Hp Hr.
    destruct (current_phase t) eqn:Hc; try discriminate Ha; try congruence;
      apply (proj2 (set_status_phase_agree now t t' _ Hag Ha)); congruence.
  - unfold advance_phase. intros Ha Hr. rewrite Hr in Ha.
    destruct (ai_reviews_required t <=? ai_reviews_completed t); [|discriminate].
    exact (proj1 (set_status_phase_agree now t t' _ Hag Ha) eq_refl).
Qed.

Lemma phase_history_agreement_witness :
  phase_agree adv_sample /\ advance_phase 4 adv_sample = Ok adv_sample_after /\
  phase_agree adv_sample_after.
Proof.
  split; [reflexivity | split; [reflexivity |]].
  refine (proj1 (proj2 (proj2 (phase_history_agreement 4 adv_sample adv_sample_after _))) _ _ _).
  - reflexivity.
  - reflexivity.
  - discriminate.
  - discriminate.
Defined.

(** ** C9: the review counter *)

(** Claim C9 does not hold as stated: [Task::add_ai_review] on a task with
    an attached workflow bumps the counter but records the review in the
    last phase, not in the workflow's report list. *)
Lemma add_ai_review_breaks_count :
  reviews_agree (mk_task 1 [] AIReview [sample_phase AIReview] 3 0 (Some fresh_workflow)) /\
  ai_reviews_completed
    (add_ai_review 5 (mk_task 1 [] AIReview [sample_phase AIReview] 3 0
                        (Some fresh_workflow)) sample_review) = 1 /\
  development_workflow
    (add_ai_review 5 (mk_task 1 [] AIReview [sample_phase AIReview] 3 0
                        (Some fresh_workflow)) sample_review) = Some fresh_workflow /\
  ai_review_reports fresh_workflow = [].
Proof. repeat split. Qed.

(** Claim C9, as the code has it.  [add_ai_review_report] on an existing
    task with a workflow appends the report and sets [ai_reviews_completed]
    to the new length of the report list as a [u32] (modulo 2^32), in the
    in-memory map whatever the store does.  [Task::add_ai_review], on a task
    with a non-empty phase history, increments the counter (as a [u32]) and
    leaves the attached workflow, and so its report list, unchanged. *)
Theorem ai_review_counter (io : StoreOutcome) (now : Z) (srv : Server) (tid : Uuid)
    (t : Task) (w : DevelopmentWorkflow) (rep : AIDevelopmentReview) (rv : AIReview_) :
  tasks srv !! tid = Some t -> development_workflow t = Some w ->
  (exists t' w', tasks (add_ai_review_report io now srv tid rep).1 !! tid = Some t' /\
     development_workflow t' = Some w' /\
     ai_review_reports w' = ai_review_reports w ++ [rep] /\
     ai_reviews_completed t' = Z.of_nat (length (ai_review_reports w')) mod 2 ^ 32) /\
  (phases t <> [] ->
   ai_reviews_completed (add_ai_review now t rv) = (ai_reviews_completed t + 1) mod 2 ^ 32 /\
   development_workflow (add_ai_review now t rv) = Some w).
Proof.
  intros Ht Hw. split.
  - unfold add_ai_review_report. rewrite Ht, Hw, persist_task_tasks. cbn.
    rewrite lookup_insert_eq.
    do 2 eexists; (split; [reflexivity | split; [reflexivity | split; reflexivity]]).
  - intros Hne. unfold add_ai_review. destruct (phases t); [done|]. cbn.
    split; [reflexivity | exact Hw].
Qed.

Lemma ai_review_counter_witness :
  exists t' w', tasks (add_ai_review_report StoreOk 5 (with_tasks sample_server
      {[1%N := mk_task 1 [] AIReview [sample_phase AIReview] 3 0
                 (Some fresh_workflow)]}) 1%N sample_report).1 !! 1%N = Some t' /\
    development_workflow t' = Some w' /\
    ai_review_reports w' = [sample_report] /\
    ai_reviews_completed t' = Z.of_nat (length (ai_review_reports w')) mod 2 ^ 32.
Proof.
  refine (proj1 (ai_review_counter StoreOk 5 _ 1%N
            (mk_task 1 [] AIReview [sample_phase AIReview] 3 0 (Some fresh_workflow))
            fresh_workflow sample_report sample_review _ _)); reflexivity.
Defined.

(** ** C5: test coverage is stored without a range check *)

(** Claim C5 fails on the code: [set_test_coverage] accepts -0.01 and 1.01
    and stores them, where the claim expects a ValidationError. *)
Theorem set_test_coverage_out_of_range :
  (set_test_coverage StoreOk 5 coverage_server 1%N ((-1) # 100)).2 = Ok tt /\
  stored_coverage (set_test_coverage StoreOk 5 coverage_server 1%N ((-1) # 100)).1 1%N
    = Some ((-1) # 100) /\
  (set_test_coverage StoreOk 5 coverage_server 1%N (101 # 100)).2 = Ok tt.
Proof. repeat split. Qed.

(** ** C4: in-memory map and store *)


(** The project-deletion cascade clears [project_id] in memory only: the
    stored copy of the task keeps the old reference. *)
Example delete_project_cascade_in_memory_only :
  let srv := with_storage (with_tasks sample_server {[1%N := submit_sample]})
               {| tasks_tree := {[1%N := submit_sample]}; workflows_tree := ∅;
                  projects_tree := {[100%N := sample_project]} |} in
  (delete_project StoreOk srv 100%N).2 = Ok tt /\
  (project_id <$> tasks (delete_project StoreOk srv 100%N).1 !! 1%N) = Some None /\
  (project_id <$> tasks_tree (storage (delete_project StoreOk srv 100%N).1) !! 1%N)
    = Some (Some 100%N).
Proof. repeat split. Qed.






(** ** C6: listing with filters *)

Lemma values_lookup (m : gmap Uuid Task) (t : Task) :
  t ∈ (map_to_list m).*2 <-> exists k, m !! k = Some t.
Proof.
  rewrite list_elem_of_fmap. split.
  - intros [[k t0] [-> Hin]]. exists k. by apply elem_of_map_to_list.
  - intros [k Hk]. exists (k, t). split; [reflexivity |].
    by apply elem_of_map_to_list.
Qed.

Lemma status_filter_matches_exact (s : string) (e : TaskStatus) :
  s <> "implementation"%string ->
  status_filter_matches s e = true <-> exact_status_name s = Some e.
Proof.
  intros Hs. unfold status_filter_matches, exact_status_name.
  destruct (String.eqb_spec s "planning"); [rewrite bool_decide_eq_true; naive_solver|].
  destruct (String.eqb_spec s "pending"); [rewrite bool_decide_eq_true; naive_solver|].
  destruct (String.eqb_spec s "running"); [rewrite bool_decide_eq_true; naive_solver|].
  destruct (String.eqb_spec s "completed"); [rewrite bool_decide_eq_true; naive_solver|].
  destruct (String.eqb_spec s "failed"); [rewrite bool_decide_eq_true; naive_solver|].
  destruct (String.eqb_spec s "cancelled"); [rewrite bool_decide_eq_true; naive_solver|].
  destruct (String.eqb_spec s "implementation"); [done|].
  destruct (String.eqb_spec s "testcreation"); [rewrite bool_decide_eq_true; naive_solver|].
  destruct (String.eqb_spec s "testing"); [rewrite bool_decide_eq_true; naive_solver|].
  destruct (String.eqb_spec s "aireview"); [rewrite bool_decide_eq_true; naive_solver|].
  split; discriminate.
Qed.

(** Claim C6 does not hold as stated: the filter is not case-insensitive
    ("Planning" selects nothing although task 1 is effectively Planning),
    and "implementation" does not select a task whose effective status is
    Implementation (it is compared with the legacy InImplementation). *)
Lemma list_tasks_filter_mismatch :
  get_effective_task_status planning_task = Planning /\
  list_tasks listing_server None (Some "Planning") = [] /\
  get_effective_task_status impl_task = Implementation /\
  list_tasks listing_server None (Some "implementation") = [].
Proof. repeat split. Qed.

(** Claim C6, as the code has it (the filter string "implementation" left
    aside).  [list_tasks p s] returns, with [status] replaced by the
    effective status, exactly the stored tasks whose legacy [project] string
    equals [p] when given and, when [s] is given, whose effective status is
    the one [s] names, [s] being compared exactly with the lowercase names;
    any other string selects no task. *)
Theorem list_tasks_filters (srv : Server) (p s : option string) (t' : Task) :
  s <> Some "implementation"%string ->
  t' ∈ list_tasks srv p s <->
  exists k t, tasks srv !! k = Some t /\ t' = display_task t /\
    (forall x, p = Some x -> project t = Some x) /\
    (forall x, s = Some x -> exact_status_name x = Some (get_effective_task_status t)).
Proof.
  intros Hs. unfold list_tasks. rewrite list_elem_of_fmap.
  split.
  - intros [t [-> Ht]].
    assert (Hgen : exists k, tasks srv !! k = Some t /\
      (forall x, p = Some x -> project t = Some x) /\
      (forall x, s = Some x ->
         status_filter_matches x (get_effective_task_status t) = true)).
    { assert (Hby : t ∈ (match p with
                         | Some y => filter (fun t => project t = Some y)
                                       (map_to_list (tasks srv)).*2
                         | None => (map_to_list (tasks srv)).*2
                         end) /\
              (forall x, s = Some x ->
                 status_filter_matches x (get_effective_task_status t) = true)).
      { destruct s as [x|].
        - apply list_elem_of_filter in Ht as [Hm Ht].
          split; [exact Ht | intros z Hz; injection Hz as <-; exact Hm].
        - split; [exact Ht | discriminate]. }
      destruct Hby as [Hby Hst].
      destruct p as [y|].
      - apply list_elem_of_filter in Hby as [Hp Hby].
        apply values_lookup in Hby as [k Hk].
        exists k. split; [exact Hk | split; [|exact Hst]].
        intros z Hz. injection Hz as <-. exact Hp.
      - apply values_lookup in Hby as [k Hk].
        exists k. split; [exact Hk | split; [discriminate | exact Hst]]. }
    destruct Hgen as (k & Hk & Hp & Hst).
    exists k, t. split; [exact Hk | split; [reflexivity | split; [exact Hp |]]].
    intros x Hx. apply status_filter_matches_exact; [congruence | by apply Hst].
  - intros (k & t & Hk & -> & Hp & Hst). exists t. split; [reflexivity |].
    assert (Hall : t ∈ (map_to_list (tasks srv)).*2).
    { apply values_lookup. by exists k. }
    assert (Hby : t ∈ (match p with
                       | Some y => filter (fun t => project t = Some y)
                                     (map_to_list (tasks srv)).*2
                       | None => (map_to_list (tasks srv)).*2
                       end)).
    { destruct p as [y|]; [|exact Hall].
      apply list_elem_of_filter. split; [by apply Hp | exact Hall]. }
    destruct s as [x|]; [|exact Hby].
    apply list_elem_of_filter. split; [|exact Hby].
    apply status_filter_matches_exact; [congruence | by apply Hst].
Qed.

Lemma list_tasks_filters_witness :
  Some "planning"%string <> Some "implementation"%string /\
  (display_task planning_task ∈ list_tasks listing_server None (Some "planning") <->
   exists k t, tasks listing_server !! k = Some t /\ display_task planning_task = display_task t /\
    (forall x, (None : option string) = Some x -> project t = Some x) /\
    (forall x, Some "planning"%string = Some x ->
       exact_status_name x = Some (get_effective_task_status t))).
Proof.
  split; [discriminate |].
  apply (list_tasks_filters listing_server None (Some "planning"%string)).
  discriminate.
Defined.

(** ** C3: correctness of the workflow cycle check *)

Section Dfs.
Variable ts : list Task.

Lemma find_task_some (u : Uuid) (t : Task) :
  find_task ts u = Some t -> t ∈ ts /\ id t = u.
Proof.
  unfold find_task. intros H. apply find_some in H as [Hin Heq].
  apply N.eqb_eq in Heq. split; [by apply list_elem_of_In | exact Heq].
Qed.

Lemma id_in_universe (t : Task) : t ∈ ts -> id t ∈ node_universe ts.
Proof.
  intros Ht. unfold node_universe. apply elem_of_list_to_set.
  apply list_elem_of_In. apply in_or_app. left.
  apply in_map. by apply list_elem_of_In.
Qed.

Lemma dep_in_universe (t : Task) (v : Uuid) :
  t ∈ ts -> v ∈ dep_ids t -> v ∈ node_universe ts.
Proof.
  intros Ht Hv. unfold node_universe. apply elem_of_list_to_set.
  apply list_elem_of_In. apply in_or_app. right.
  apply in_concat. exists (dep_ids t). split.
  - apply in_map. by apply list_elem_of_In.
  - by apply list_elem_of_In.
Qed.

Lemma edge_in_universe (u v : Uuid) : dfs_edge ts u v -> v ∈ node_universe ts.
Proof.
  intros [t [Hf Hv]]. apply find_task_some in Hf as [Ht _].
  exact (dep_in_universe t v Ht Hv).
Qed.

Lemma dfs_inv_empty : dfs_inv ts ∅ ∅.
Proof. split; [set_solver |]. intros b [Hb _]. set_solver. Qed.

(** Entering [u]: it becomes grey. *)
Lemma dfs_inv_push (V R : gset Uuid) (u : Uuid) :
  dfs_inv ts V R -> u ∉ V -> dfs_inv ts ({[u]} ∪ V) ({[u]} ∪ R).
Proof.
  intros [HRV Hb] Hu. split; [set_solver |].
  intros b [Hb1 Hb2].
  assert (Hbl : black V R b) by (split; set_solver).
  destruct (Hb b Hbl) as [Hcl Hnc]. split; [| exact Hnc].
  intros x Hx. destruct (Hcl x Hx) as [Hx1 Hx2]. split; set_solver.
Qed.

(** Leaving [u] once all its successors are finished: it becomes black. *)
Lemma dfs_inv_pop (V R : gset Uuid) (u : Uuid) :
  dfs_inv ts V ({[u]} ∪ R) -> u ∉ R -> u ∈ V ->
  (forall y, dfs_edge ts u y -> black V ({[u]} ∪ R) y) ->
  dfs_inv ts V R.
Proof.
  intros [HRV Hb] HuR HuV Hsucc. split; [set_solver |].
  assert (Hweak : forall x, black V ({[u]} ∪ R) x -> black V R x).
  { intros x [? ?]. split; set_solver. }
  intros b [HbV HbR].
  destruct (decide (b = u)) as [->|Hne].
  - split.
    + intros x Hx. apply rtc_inv in Hx as [<- | (y & Hy & Hyx)].
      * split; done.
      * apply Hweak. exact (proj1 (Hb y (Hsucc y Hy)) x Hyx).
    + intros Hc. inversion Hc as [? ? Hy | ? y ? Hy Hyu]; subst.
      * destruct (Hsucc u Hy) as [_ Hn]. set_solver.
      * destruct (proj1 (Hb y (Hsucc y Hy)) u (tc_rtc _ _ Hyu)) as [_ Hn].
        set_solver.
  - assert (Hbl : black V ({[u]} ∪ R) b) by (split; set_solver).
    destruct (Hb b Hbl) as [Hcl Hnc]. split; [| exact Hnc].
    intros x Hx. apply Hweak. exact (Hcl x Hx).
Qed.

Lemma size_shrinks (V : gset Uuid) (u : Uuid) :
  u ∈ node_universe ts -> u ∉ V ->
  (size (node_universe ts ∖ ({[u]} ∪ V)) < size (node_universe ts ∖ V))%nat.
Proof.
  intros Hu HV. apply subset_size. split; [set_solver |].
  intros Hsub. assert (Hin : u ∈ node_universe ts ∖ V) by set_solver.
  apply Hsub in Hin. set_solver.
Qed.

Lemma size_mono (V V' : gset Uuid) :
  V ⊆ V' -> (size (node_universe ts ∖ V') <= size (node_universe ts ∖ V))%nat.
Proof. intros H. apply subseteq_size. set_solver. Qed.
End Dfs.

Section DepsLoop.
Variable ts : list Task.
Variable hc : Uuid -> gset Uuid -> gset Uuid -> bool * gset Uuid * gset Uuid.
Variable fuel' : nat.

Hypothesis Hhc : hc_spec ts hc fuel'.

Lemma deps_loop_correct (u : Uuid) (ds : list Dependency) (V R : gset Uuid) :
  (forall d, d ∈ ds -> dfs_edge ts u (dep_task_id d)) ->
  u ∈ R -> (forall r, r ∈ R -> rtc (dfs_edge ts) r u) ->
  dfs_inv ts V R -> (size (node_universe ts ∖ V) < fuel')%nat ->
  match deps_loop hc ds V R with
  | (true, _, _) => exists x, tc (dfs_edge ts) x x
  | (false, V', R') =>
      R' = R /\ V ⊆ V' /\ dfs_inv ts V' R /\
      forall d, d ∈ ds -> black V' R (dep_task_id d)
  end.
Proof.
  revert V. induction ds as [|d ds IH]; intros V Hds HuR Hgrey Hinv Hsz; simpl.
  { split; [done | split; [done | split; [done |]]]. intros d Hd. set_solver. }
  assert (Hedge : dfs_edge ts u (dep_task_id d)) by (apply Hds; set_solver).
  assert (Hds' : forall d', d' ∈ ds -> dfs_edge ts u (dep_task_id d'))
    by (intros d' Hd'; apply Hds; set_solver).
  case_bool_decide as HV.
  - case_bool_decide as HR.
    + exists u. apply tc_rtc_r with (dep_task_id d); [by apply tc_once |].
      by apply Hgrey.
    + specialize (IH V Hds' HuR Hgrey Hinv Hsz).
      destruct (deps_loop hc ds V R) as [[[|] V'] R']; [exact IH |].
      destruct IH as (-> & HVV' & Hinv' & Hbl).
      split; [done | split; [done | split; [done |]]].
      intros d' Hd'. apply elem_of_cons in Hd' as [-> | Hd'].
      * split; set_solver.
      * by apply Hbl.
  - assert (Hu' : dep_task_id d ∈ node_universe ts) by exact (edge_in_universe ts _ _ Hedge).
    assert (Hpre : forall r, r ∈ R -> rtc (dfs_edge ts) r (dep_task_id d))
      by (intros r Hr; apply rtc_r with u; [by apply Hgrey | exact Hedge]).
    specialize (Hhc (dep_task_id d) V R HV Hu' Hsz Hinv Hpre).
    destruct (hc (dep_task_id d) V R) as [[[|] V1] R1]; [exact Hhc |].
    destruct Hhc as (-> & HVV1 & Hd1 & Hinv1).
    assert (Hsz1 : (size (node_universe ts ∖ V1) < fuel')%nat)
      by (pose proof (size_mono ts V V1 HVV1); lia).
    specialize (IH V1 Hds' HuR Hgrey Hinv1 Hsz1).
    destruct (deps_loop hc ds V1 R) as [[[|] V'] R']; [exact IH |].
    destruct IH as (-> & HV1V' & Hinv' & Hbl).
    split; [done | split; [set_solver | split; [done |]]].
    intros d' Hd'. apply elem_of_cons in Hd' as [-> | Hd'].
    * destruct Hinv as [HRV _]. split; set_solver.
    * by apply Hbl.
Qed.
End DepsLoop.

Lemma has_cycle_correct (ts : list Task) (fuel : nat) :
  hc_spec ts (has_cycle fuel ts) fuel ->
  hc_spec ts (has_cycle (S fuel) ts) (S fuel).
Proof.
  intros IH u V R HuV HuU Hsz Hinv Hgrey. simpl.
  assert (HuR : u ∉ R) by (destruct Hinv as [HRV _]; set_solver).
  pose proof (dfs_inv_push ts V R u Hinv HuV) as Hinv1.
  assert (Hgrey1 : forall r, r ∈ {[u]} ∪ R -> rtc (dfs_edge ts) r u).
  { intros r Hr. apply elem_of_union in Hr as [Hr | Hr].
    - apply elem_of_singleton in Hr as ->. apply rtc_refl.
    - by apply Hgrey. }
  assert (Hdiff : ({[u]} ∪ R) ∖ {[u]} = R)
    by (apply leibniz_equiv; set_solver).
  destruct (find_task ts u) as [t|] eqn:Hf.
  - assert (Hsz1 : (size (node_universe ts ∖ ({[u]} ∪ V)) < fuel)%nat)
      by (pose proof (size_shrinks ts V u HuU HuV); lia).
    assert (Hds : forall d, d ∈ dependencies t -> dfs_edge ts u (dep_task_id d)).
    { intros d Hd. exists t. split; [done |]. unfold dep_ids.
      apply list_elem_of_fmap. by exists d. }
    pose proof (deps_loop_correct ts (has_cycle fuel ts) fuel IH u
      (dependencies t) ({[u]} ∪ V) ({[u]} ∪ R) Hds ltac:(set_solver) Hgrey1 Hinv1 Hsz1)
      as Hloop.
    destruct (deps_loop (has_cycle fuel ts) (dependencies t) ({[u]} ∪ V) ({[u]} ∪ R))
      as [[[|] V'] R']; [exact Hloop |].
    destruct Hloop as (-> & HV1 & Hinv' & Hbl).
    rewrite Hdiff. split; [done | split; [set_solver | split; [set_solver |]]].
    apply (dfs_inv_pop ts V' R u Hinv' HuR ltac:(set_solver)).
    intros y [t' [Hf' Hy]]. rewrite Hf in Hf'. injection Hf' as <-.
    unfold dep_ids in Hy. apply list_elem_of_fmap in Hy as [d [-> Hd]].
    by apply Hbl.
  - rewrite Hdiff. split; [done | split; [set_solver | split; [set_solver |]]].
    apply (dfs_inv_pop ts ({[u]} ∪ V) R u Hinv1 HuR ltac:(set_solver)).
    intros y [t' [Hf' _]]. rewrite Hf in Hf'. discriminate.
Qed.

Lemma has_cycle_spec (ts : list Task) (fuel : nat) :
  hc_spec ts (has_cycle fuel ts) fuel.
Proof.
  induction fuel as [|fuel IH].
  - intros u V R _ _ Hsz. lia.
  - apply has_cycle_correct. exact IH.
Qed.

Lemma check_loop_correct (ts todo : list Task) (V : gset Uuid) :
  (forall t, t ∈ todo -> t ∈ ts) -> dfs_inv ts V ∅ ->
  if check_loop (dfs_bound ts) ts todo V ∅
  then exists x, tc (dfs_edge ts) x x
  else exists V', V ⊆ V' /\ dfs_inv ts V' ∅ /\ forall t, t ∈ todo -> id t ∈ V'.
Proof.
  revert V. induction todo as [|t todo IH]; intros V Hsub Hinv; cbn [check_loop].
  { exists V. split; [done | split; [done |]]. intros t Ht. set_solver. }
  assert (Hsub' : forall t', t' ∈ todo -> t' ∈ ts)
    by (intros t' Ht'; apply Hsub; set_solver).
  case_bool_decide as HV.
  - specialize (IH V Hsub' Hinv).
    destruct (check_loop (dfs_bound ts) ts todo V ∅); [exact IH |].
    destruct IH as (V' & HVV' & Hinv' & Hin). exists V'.
    split; [done | split; [done |]].
    intros t' Ht'. apply elem_of_cons in Ht' as [-> | Ht']; [set_solver | by apply Hin].
  - assert (HtU : id t ∈ node_universe ts) by (apply id_in_universe, Hsub; set_solver).
    assert (Hsz : (size (node_universe ts ∖ V) < dfs_bound ts)%nat).
    { unfold dfs_bound. pose proof (subseteq_size (node_universe ts ∖ V) (node_universe ts)
        ltac:(set_solver)). lia. }
    pose proof (has_cycle_spec ts (dfs_bound ts) (id t) V ∅ HV HtU Hsz Hinv
      ltac:(set_solver)) as Hhc.
    destruct (has_cycle (dfs_bound ts) ts (id t) V ∅) as [[[|] V1] R1]; [exact Hhc |].
    destruct Hhc as (-> & HVV1 & Ht1 & Hinv1).
    specialize (IH V1 Hsub' Hinv1).
    destruct (check_loop (dfs_bound ts) ts todo V1 ∅); [exact IH |].
    destruct IH as (V' & HV1V' & Hinv' & Hin). exists V'.
    split; [set_solver | split; [done |]].
    intros t' Ht'. apply elem_of_cons in Ht' as [-> | Ht']; [set_solver | by apply Hin].
Qed.

(** [check_circular_dependencies] reports a cycle exactly when the graph it
    walks has one. *)
Lemma check_circular_dependencies_dfs (w : Workflow) :
  check_circular_dependencies w = Ok tt <-> ~ exists x, tc (dfs_edge (w_tasks w)) x x.
Proof.
  unfold check_circular_dependencies.
  pose proof (check_loop_correct (w_tasks w) (w_tasks w) ∅ (fun t Ht => Ht)
    (dfs_inv_empty (w_tasks w))) as H.
  destruct (check_loop _ _ _ _ _).
  - split; [discriminate | intros Hn; exfalso; exact (Hn H)].
  - split; [intros _ | done].
    destruct H as (V' & _ & [_ Hbl] & Hin). intros [x Hx].
    assert (Hx1 : exists y, dfs_edge (w_tasks w) x y)
      by (inversion Hx; eexists; eassumption).
    destruct Hx1 as [y [t [Hf _]]].
    apply find_task_some in Hf as [Ht <-].
    assert (Hb : black V' ∅ (id t)) by (split; [by apply Hin | set_solver]).
    exact (proj2 (Hbl _ Hb) Hx).
Qed.

Lemma dfs_edge_wf_edge (ts : list Task) (u v : Uuid) :
  dfs_edge ts u v -> wf_edge ts u v.
Proof.
  intros [t [Hf Hv]]. apply find_task_some in Hf as [Ht Hid]. by exists t.
Qed.

Lemma find_task_nodup (ts : list Task) (t : Task) :
  NoDup (id <$> ts) -> t ∈ ts -> find_task ts (id t) = Some t.
Proof.
  induction ts as [|t0 ts IH]; intros Hnd Ht; [set_solver |].
  rewrite fmap_cons in Hnd. apply NoDup_cons in Hnd as [Hn0 Hnd].
  unfold find_task. simpl. destruct (N.eqb (id t0) (id t)) eqn:He.
  - apply N.eqb_eq in He. apply elem_of_cons in Ht as [-> | Ht]; [done |].
    exfalso. apply Hn0. rewrite He. apply list_elem_of_fmap. by exists t.
  - apply elem_of_cons in Ht as [-> | Ht].
    + by rewrite N.eqb_refl in He.
    + by apply IH.
Qed.

Lemma wf_edge_dfs_edge (ts : list Task) (u v : Uuid) :
  NoDup (id <$> ts) -> wf_edge ts u v -> dfs_edge ts u v.
Proof.
  intros Hnd (t & Ht & <- & Hv). exists t. split; [by apply find_task_nodup | done].
Qed.

(** With pairwise distinct task ids the walked graph is the workflow's
    dependency graph. *)
Lemma dfs_cycle_iff (ts : list Task) :
  NoDup (id <$> ts) ->
  (exists x, tc (dfs_edge ts) x x) <-> has_dependency_cycle ts.
Proof.
  intros Hnd. unfold has_dependency_cycle. split; intros [x Hx]; exists x.
  - exact (tc_congruence (R:=dfs_edge ts) (fun y => y) (wf_edge ts) x x
      (dfs_edge_wf_edge ts) Hx).
  - exact (tc_congruence (R:=wf_edge ts) (fun y => y) (dfs_edge ts) x x
      (fun a b => wf_edge_dfs_edge ts a b Hnd) Hx).
Qed.

(** C3 (counterexample): the dependency graph over the embedded tasks of
    [duplicate_id_workflow] has the cycle 1 -> 1, yet [submit_workflow]
    accepts it, because [has_cycle] only follows the first task with a
    given id. *)
Lemma submit_workflow_duplicate_ids :
  has_dependency_cycle (w_tasks duplicate_id_workflow) /\
  exists srv', submit_workflow StoreOk sample_server duplicate_id_workflow = (srv', Ok 7%N).
Proof.
  split.
  - exists 1%N. apply tc_once.
    exists (mk_task 1 [mk_dep 1 CSuccess true] Planning [] 3 0 None).
    split; [apply list_elem_of_In; simpl; auto |
      split; [reflexivity | apply list_elem_of_In; simpl; auto]].
  - eexists. vm_compute. reflexivity.
Qed.

(** C3 (amended): for a workflow with a non-empty name, a non-empty task
    list and pairwise distinct task ids, [submit_workflow] succeeds (when the
    store write succeeds) if the dependency graph of its embedded tasks is
    acyclic, and fails with [CircularDependency], leaving the server
    unchanged, if that graph has a cycle. *)
Theorem submit_workflow_cycle_check (io : StoreOutcome) (srv : Server) (w : Workflow) :
  w_name w <> ""%string -> w_tasks w <> [] -> NoDup (id <$> w_tasks w) ->
  (~ has_dependency_cycle (w_tasks w) ->
     exists srv', submit_workflow StoreOk srv w = (srv', Ok (w_id w))) /\
  (has_dependency_cycle (w_tasks w) ->
     exists msg, submit_workflow io srv w = (srv, Err (CircularDependency msg))).
Proof.
  intros Hname Htasks Hnd.
  pose proof (check_circular_dependencies_dfs w) as Hcc.
  pose proof (dfs_cycle_iff (w_tasks w) Hnd) as Hiff.
  unfold submit_workflow, validate_workflow.
  rewrite (bool_decide_eq_false_2 _ Hname), (bool_decide_eq_false_2 _ Htasks).
  split.
  - intros Hno. assert (Hok : check_circular_dependencies w = Ok tt)
      by (apply Hcc; rewrite Hiff; exact Hno).
    rewrite Hok. simpl. eexists. reflexivity.
  - intros Hcyc. unfold check_circular_dependencies in *.
    destruct (check_loop _ _ _ _ _).
    + eexists. reflexivity.
    + exfalso. apply (proj1 Hcc eq_refl). by apply Hiff.
Qed.

Lemma submit_workflow_cycle_check_witness :
  exists msg, submit_workflow StoreOk sample_server s3_workflow
              = (sample_server, Err (CircularDependency msg)).
Proof.
  apply (proj2 (submit_workflow_cycle_check StoreOk sample_server s3_workflow
    ltac:(discriminate) ltac:(discriminate) ltac:(apply (bool_decide_unpack _); vm_compute; reflexivity))).
  exists 1%N. apply tc_l with 2%N.
  - exists (mk_task 1 [mk_dep 2 CSuccess true] Planning [] 3 0 None).
    split; [apply list_elem_of_In; simpl; auto |
      split; [reflexivity | apply list_elem_of_In; simpl; auto]].
  - apply tc_once.
    exists (mk_task 2 [mk_dep 1 CSuccess true] Planning [] 3 0 None).
    split; [apply list_elem_of_In; simpl; auto |
      split; [reflexivity | apply list_elem_of_In; simpl; auto]].
Defined.

(** ** Further properties of the task, project and workflow operations *)

Lemma deps_ready_app (ds1 ds2 : list Dependency) (m : gmap Uuid TaskResult) :
  deps_ready (ds1 ++ ds2) m = deps_ready ds1 m && deps_ready ds2 m.
Proof.
  induction ds1 as [|d ds IH]; simpl; [reflexivity|].
  destruct (m !! dep_task_id d) as [r|]; [|reflexivity].
  destruct (condition d), r; simpl; auto.
Qed.

Lemma deps_ready_weaken (ds : list Dependency) (m m' : gmap Uuid TaskResult) :
  m ⊆ m' -> deps_ready ds m = true -> deps_ready ds m' = true.
Proof.
  intros Hsub. induction ds as [|d ds IH]; simpl; [done|].
  destruct (m !! dep_task_id d) as [r|] eqn:E; [|discriminate].
  rewrite (lookup_weaken m m' _ _ E Hsub).
  destruct (condition d), r; auto.
Qed.

Lemma filter_all {A} (P : A -> Prop) `{forall x, Decision (P x)} (l : list A) :
  (forall x, x ∈ l -> P x) -> filter P l = l.
Proof.
  induction l as [|x l IH]; intros Hall; [reflexivity|].
  rewrite filter_cons_True by (apply Hall; left).
  f_equal. apply IH. intros y Hy. apply Hall. by right.
Qed.

(** [Task::set_result] records the result and sets the status by the
    result's variant (Completed, Failed, Cancelled), but it leaves the
    development phase, the phase history and the development workflow as
    they were, so the effective status the server reports does not move. *)
Theorem set_result_keeps_effective_status (now : Z) (t : Task) (r : TaskResult) :
  result (set_result now t r) = Some r /\
  status (set_result now t r)
    = match r with
      | RSuccess _ _ _ => Completed
      | RFailure _ _ _ => Failed
      | RCancelled _ => Cancelled
      end /\
  current_phase (set_result now t r) = current_phase t /\
  phases (set_result now t r) = phases t /\
  get_effective_task_status (set_result now t r) = get_effective_task_status t.
Proof. repeat split. Qed.

(** a dependency recorded with correlation id [cid] is returned, after
    the earlier ones, by the correlation query for [cid] and by no other
    correlation query; a dependency added without correlation id changes
    no correlation query. *)
Theorem correlation_query_after_add (now : Z) (t : Task) (u : Uuid)
    (nm : option string) (c : DependencyCondition) (req : bool) (cid cid' : string) :
  get_dependencies_by_correlation
    (add_correlated_dependency now t u nm c req cid) cid'
  = get_dependencies_by_correlation t cid' ++
    (if bool_decide (cid' = cid) then
       [{| dep_task_id := u; dep_task_name := nm; condition := c;
           required := req; correlation_id := Some cid |}]
     else []) /\
  get_dependencies_by_correlation (add_dependency now t u nm c req) cid'
  = get_dependencies_by_correlation t cid'.
Proof.
  unfold get_dependencies_by_correlation, add_correlated_dependency,
    add_dependency, with_dependencies; simpl.
  rewrite !filter_app. split.
  - f_equal. case_bool_decide; subst.
    + rewrite filter_cons_True; done.
    + rewrite filter_cons_False; [done|]. intros Heq. injection Heq. auto.
  - rewrite filter_cons_False; [|discriminate]. apply app_nil_r.
Qed.

(** adding a dependency (with or without correlation id) makes the task
    ready exactly when it was ready before and the new dependency is
    satisfied by the completed results; so adding a dependency never makes
    an unready task ready. *)
Theorem add_dependency_readiness (now : Z) (t : Task) (u : Uuid)
    (nm : option string) (c : DependencyCondition) (req : bool) (cid : string)
    (m : gmap Uuid TaskResult) :
  is_ready (add_dependency now t u nm c req) m
  = is_ready t m && deps_ready [{| dep_task_id := u; dep_task_name := nm;
        condition := c; required := req; correlation_id := None |}] m /\
  is_ready (add_correlated_dependency now t u nm c req cid) m
  = is_ready t m && deps_ready [{| dep_task_id := u; dep_task_name := nm;
        condition := c; required := req; correlation_id := Some cid |}] m /\
  (is_ready (add_dependency now t u nm c req) m = true -> is_ready t m = true).
Proof.
  unfold is_ready, add_dependency, add_correlated_dependency, with_dependencies; simpl.
  rewrite !deps_ready_app. split; [done|]. split; [done|].
  intros H. apply andb_prop in H. tauto.
Qed.

Lemma advance_development_phase_n_S (n : nat) (now : Z) (t : Task) :
  advance_development_phase_n (S n) now t
  = advance_development_phase_n n now (advance_development_phase now t).1.
Proof. reflexivity. Qed.

(** One call of [advance_development_phase] inside an iteration. *)
Ltac adp_step :=
  rewrite advance_development_phase_n_S; unfold advance_development_phase;
  cbn [fst status with_status_result].

(** [advance_development_phase] reports [true] exactly for the legacy
    in-development statuses and leaves any other task unchanged; from an
    in-development status at most five calls reach Pending, a status ready
    for execution, after which the next call reports [false]. *)
Theorem advance_development_phase_ladder (now : Z) (t : Task) :
  (advance_development_phase now t).2 = is_in_development t /\
  (is_in_development t = false -> advance_development_phase now t = (t, false)) /\
  (is_in_development t = true ->
     exists n, (n <= 5)%nat /\
       status (advance_development_phase_n n now t) = Pending /\
       is_ready_for_execution (advance_development_phase_n n now t) = true /\
       (advance_development_phase now (advance_development_phase_n n now t)).2 = false).
Proof.
  unfold is_in_development.
  assert (Hend : forall t', status t' = Pending ->
    status t' = Pending /\ is_ready_for_execution t' = true /\
    (advance_development_phase now t').2 = false)
    by (intros t' Ht'; unfold is_ready_for_execution, advance_development_phase;
        rewrite Ht'; auto).
  destruct (status t) eqn:E;
    (split; [unfold advance_development_phase; rewrite E; reflexivity|]);
    (split; [intros; try discriminate; unfold advance_development_phase; rewrite E;
             reflexivity | intros H]); try discriminate;
    [exists 5%nat | exists 4%nat | exists 3%nat | exists 2%nat | exists 1%nat];
    (split; [lia|]); apply Hend;
    (adp_step; rewrite E; cbn [fst]); repeat adp_step; reflexivity.
Qed.

(** [Project::add_tag] leaves the tag in the list, keeps a list without
    duplicates free of duplicates, and a second call with the same tag
    returns the project unchanged (even its update time). *)
Theorem add_tag_idempotent (now now' : Z) (p : Project) (tag : string) :
  tag ∈ p_tags (add_tag now p tag) /\
  add_tag now' (add_tag now p tag) tag = add_tag now p tag /\
  (NoDup (p_tags p) -> NoDup (p_tags (add_tag now p tag))).
Proof.
  unfold add_tag. case_bool_decide as Hin.
  - rewrite bool_decide_true by done. auto.
  - simpl. rewrite bool_decide_true by (apply elem_of_app; right; left).
    split; [apply elem_of_app; right; left|]. split; [done|].
    intros Hnd. apply NoDup_app. split; [done|]. split; [|apply NoDup_singleton].
    intros x Hx Hx'. apply list_elem_of_singleton in Hx'. subst. done.
Qed.

(** [Project::remove_tag] removes every copy of the tag and keeps every
    other tag; removing a tag that [add_tag] has just added to a project
    without it gives back the original tag list. *)
Theorem remove_tag_inverse (now now' : Z) (p : Project) (tag : string) :
  (tag ∉ p_tags (remove_tag now p tag)) /\
  (forall x, x <> tag -> (x ∈ p_tags (remove_tag now p tag) <-> x ∈ p_tags p)) /\
  (tag ∉ p_tags p -> p_tags (remove_tag now' (add_tag now p tag) tag) = p_tags p).
Proof.
  unfold remove_tag; simpl. split; [|split].
  - rewrite list_elem_of_filter. tauto.
  - intros x Hx. rewrite list_elem_of_filter. tauto.
  - intros Hnot. unfold add_tag. rewrite bool_decide_false by done. simpl.
    rewrite filter_app, filter_cons_False by tauto. rewrite app_nil_r.
    apply filter_all. intros x Hx ->. done.
Qed.

(** From the Planning phase, four calls of [advance_phase] succeed and
    reach AIReview; the fifth succeeds, reaching Finalized, exactly when
    the completed reviews are at least the required ones, and fails
    otherwise; advancing a Finalized task fails. *)
Theorem advance_phase_ladder (now : Z) (t : Task) :
  current_phase t = Planning ->
  (exists t4, advance_phase_n 4 now t = Ok t4 /\
     current_phase t4 = AIReview /\ status t4 = AIReview) /\
  (ai_reviews_required t <= ai_reviews_completed t ->
     exists t5, advance_phase_n 5 now t = Ok t5 /\
       current_phase t5 = Finalized /\ status t5 = Finalized /\
       exists e, advance_phase now t5 = Err e) /\
  (ai_reviews_completed t < ai_reviews_required t ->
     exists e, advance_phase_n 5 now t = Err e).
Proof.
  intros H.
  unfold advance_phase_n, advance_phase, set_status, can_transition_to.
  rewrite H. cbn.
  split; [eexists; repeat split|]. split.
  - intros Hle. apply Z.leb_le in Hle. rewrite Hle. cbn.
    eexists; repeat split. eexists. reflexivity.
  - intros Hlt. assert (Hf : (ai_reviews_required t <=? ai_reviews_completed t) = false)
      by (apply Z.leb_gt; lia).
    rewrite Hf. eexists. reflexivity.
Qed.

Lemma advance_phase_ladder_witness :
  exists t5, advance_phase_n 5 0 (mk_task 1 [] Planning [sample_phase Planning] 0 0 None) = Ok t5 /\
    current_phase t5 = Finalized /\ status t5 = Finalized /\
    exists e, advance_phase 0 t5 = Err e.
Proof.
  apply (proj1 (proj2 (advance_phase_ladder 0
    (mk_task 1 [] Planning [sample_phase Planning] 0 0 None) eq_refl))).
  simpl. lia.
Defined.

(** [Workflow::get_ready_tasks] only grows when more results are known, a
    task of the workflow without dependencies is always returned, and a
    task added by [Workflow::add_task] is returned after the others exactly
    when it is ready. *)
Theorem get_ready_tasks_monotone (w : Workflow) (m m' : gmap Uuid TaskResult)
    (now : Z) (t : Task) :
  (m ⊆ m' -> forall x, x ∈ get_ready_tasks w m -> x ∈ get_ready_tasks w m') /\
  (forall x, x ∈ w_tasks w -> dependencies x = [] -> x ∈ get_ready_tasks w m) /\
  get_ready_tasks (workflow_add_task now w t) m
  = get_ready_tasks w m ++ (if is_ready t m then [t] else []).
Proof.
  unfold get_ready_tasks. split; [|split].
  - intros Hsub x. rewrite !list_elem_of_filter. intros [Hr Hx].
    split; [|done]. by apply (deps_ready_weaken _ m).
  - intros x Hx Hd. apply list_elem_of_filter. split; [|done].
    unfold is_ready. rewrite Hd. reflexivity.
  - simpl. rewrite filter_app. f_equal. destruct (is_ready t m) eqn:E.
    + by rewrite filter_cons_True, filter_nil.
    + rewrite filter_cons_False, filter_nil; [done|]. congruence.
Qed.

(** [add_task_dependency] on a missing task fails with TaskNotFound and
    changes nothing; on an existing task the dependency is appended in
    memory (whether or not the store write succeeds), it is the last entry
    [get_task_dependencies] returns, its correlation id (if any) is the last
    one [get_task_correlations] returns, and no other task changes. *)
Theorem add_task_dependency_roundtrip (io : StoreOutcome) (now : Z) (srv : Server)
    (tid dep : Uuid) (nm : option string) (c : DependencyCondition) (req : bool)
    (cid : option string) :
  match tasks srv !! tid with
  | None => add_task_dependency io now srv tid dep nm c req cid
            = (srv, Err (TaskNotFound tid))
  | Some t =>
      get_task_dependencies (add_task_dependency io now srv tid dep nm c req cid).1 tid
      = Ok (dependencies t ++
            [{| dep_task_id := dep; dep_task_name := nm; condition := c;
                required := req; correlation_id := cid |}]) /\
      get_task_correlations (add_task_dependency io now srv tid dep nm c req cid).1 tid
      = Ok (omap correlation_id (dependencies t) ++
            match cid with Some x => [x] | None => [] end) /\
      (forall k, k <> tid ->
         tasks (add_task_dependency io now srv tid dep nm c req cid).1 !! k
         = tasks srv !! k)
  end.
Proof.
  unfold add_task_dependency. destruct (tasks srv !! tid) as [t|] eqn:E; [|done].
  assert (Hmem : forall (t' : Task),
    tasks (persist_task io (with_tasks srv (<[tid := t']> (tasks srv))) t' tt).1
    = <[tid := t']> (tasks srv)) by (intros; unfold persist_task, store_task; by destruct io).
  unfold get_task_dependencies, get_task_correlations.
  rewrite !Hmem, !lookup_insert_eq.
  destruct cid; simpl; rewrite ?omap_app; (split; [done | split; [done|]]);
    intros k Hk; by rewrite lookup_insert_ne.
Qed.

Lemma elem_of_map_values {K A} `{Countable K} (m : gmap K A) (x : A) :
  x ∈ (map_to_list m).*2 <-> exists k, m !! k = Some x.
Proof.
  rewrite list_elem_of_fmap. split.
  - intros [[k y] [-> Hin]]. exists k. by apply elem_of_map_to_list.
  - intros [k Hk]. exists (k, x). split; [done|]. by apply elem_of_map_to_list.
Qed.

(** A task that passes [validate_task] is, after [submit_task], returned by
    [get_task] with its status and result, whether or not the store write
    succeeds; with a working store the call returns the task's id and the
    store holds the task under that id. *)
Theorem submit_task_get_roundtrip (io : StoreOutcome) (srv : Server) (t : Task) :
  validate_task srv t = Ok tt ->
  get_task (submit_task io srv t).1 (id t) = Ok t /\
  get_task_status (submit_task io srv t).1 (id t) = Ok (status t) /\
  get_task_result (submit_task io srv t).1 (id t) = Ok (result t) /\
  (io = StoreOk ->
     (submit_task io srv t).2 = Ok (id t) /\
     tasks_tree (storage (submit_task io srv t).1) !! id t = Some t).
Proof.
  intros Hv. unfold submit_task. rewrite Hv.
  unfold get_task_status, get_task_result, get_task.
  rewrite persist_task_tasks. simpl. rewrite lookup_insert_eq.
  split; [done|]. split; [done|]. split; [done|].
  intros ->. rewrite persist_task_true. simpl. by rewrite lookup_insert_eq.
Qed.

Lemma submit_task_get_roundtrip_witness :
  get_task (submit_task StoreOk sample_server (mk_task 1 [] Planning [] 3 0 None)).1 1%N
    = Ok (mk_task 1 [] Planning [] 3 0 None) /\
  get_task_status (submit_task StoreOk sample_server (mk_task 1 [] Planning [] 3 0 None)).1 1%N
    = Ok Planning /\
  get_task_result (submit_task StoreOk sample_server (mk_task 1 [] Planning [] 3 0 None)).1 1%N
    = Ok None /\
  (StoreOk = StoreOk ->
     (submit_task StoreOk sample_server (mk_task 1 [] Planning [] 3 0 None)).2 = Ok 1%N /\
     tasks_tree (storage (submit_task StoreOk sample_server (mk_task 1 [] Planning [] 3 0 None)).1)
       !! 1%N = Some (mk_task 1 [] Planning [] 3 0 None)).
Proof.
  apply (submit_task_get_roundtrip StoreOk sample_server (mk_task 1 [] Planning [] 3 0 None)).
  reflexivity.
Defined.

(** [create_project] puts a Planning project without tags in memory under
    the new id and answers with that id when the store write succeeds
    (StorageError otherwise); either way the in-memory project is enough
    for [validate_task] to accept a task with a name and a command that
    names it. *)
Theorem create_project_then_validate (io : StoreOutcome) (now : Z) (srv : Server)
    (u : Uuid) (nm : string) (d : option string) (t : Task) :
  (create_project io now srv u nm d).2 = (if store_ok io then Ok u else Err StorageError) /\
  get_project (create_project io now srv u nm d).1 u
  = Some {| p_id := u; p_name := nm; p_description := d; p_status := PPlanning;
            p_created_at := now; p_updated_at := now; p_tags := [] |} /\
  (name t <> ""%string -> command t <> ""%string -> project_id t = Some u ->
     validate_task (create_project io now srv u nm d).1 t = Ok tt).
Proof.
  assert (Hp : projects (create_project io now srv u nm d).1
               = <[u := {| p_id := u; p_name := nm; p_description := d;
                           p_status := PPlanning; p_created_at := now;
                           p_updated_at := now; p_tags := [] |}]> (projects srv))
    by (unfold create_project, persist_project, store_project; by destruct io).
  split; [unfold create_project, persist_project, store_project; by destruct io|].
  unfold get_project. rewrite Hp, lookup_insert_eq. split; [done|].
  intros Hn Hc Hpid. unfold validate_task.
  rewrite (bool_decide_eq_false_2 _ Hn), (bool_decide_eq_false_2 _ Hc), Hpid, Hp.
  by rewrite lookup_insert_eq.
Qed.

(** [update_project] on a missing project fails with ProjectNotFound and
    changes nothing.  On an existing project it keeps the id and the
    creation time, replaces exactly the fields the update gives (the
    description cannot be cleared), stamps the update time, writes the
    result in memory whether or not the store write succeeds, and with a
    working store writes the same project to the store. *)
Theorem update_project_effect (io : StoreOutcome) (now : Z) (srv : Server) (pid : Uuid)
    (u : ProjectUpdate) :
  match projects srv !! pid with
  | None => update_project io now srv pid u = (srv, Err (ProjectNotFound pid))
  | Some p =>
      get_project (update_project io now srv pid u).1 pid
        = Some (apply_project_update now p u) /\
      p_id (apply_project_update now p u) = p_id p /\
      p_created_at (apply_project_update now p u) = p_created_at p /\
      (u = {| pu_name := None; pu_description := None; pu_status := None;
              pu_tags := None |} ->
         apply_project_update now p u = with_project_tags p (p_tags p) now) /\
      (update_project io now srv pid u).2 = (if store_ok io then Ok tt else Err StorageError) /\
      (io = StoreOk ->
         projects_tree (storage (update_project io now srv pid u).1) !! p_id p
         = Some (apply_project_update now p u))
  end.
Proof.
  unfold update_project. destruct (projects srv !! pid) as [p|] eqn:E; [|done].
  unfold get_project, persist_project, store_project.
  destruct io; simpl; rewrite ?lookup_insert_eq;
    (split; [done|]); (split; [done|]); (split; [done|]);
    (split; [intros ->; unfold apply_project_update, with_project_tags; simpl;
             by destruct (p_description p)|]);
    (split; [done|]); first [discriminate | intros _; done].
Qed.

Lemma filter_none {A} (P : A -> Prop) `{forall x, Decision (P x)} (l : list A) :
  (forall x, x ∈ l -> ~ P x) -> filter P l = [].
Proof.
  induction l as [|x l IH]; intros Hn; [reflexivity|].
  rewrite filter_cons_False by (apply Hn; left). apply IH.
  intros y Hy. apply Hn. by right.
Qed.

(** [delete_project] on a missing project fails with ProjectNotFound and
    changes nothing.  Otherwise, whether or not the store delete succeeds,
    the project is gone from memory, no task is listed for it any more,
    and every later [submit_task] of a task naming it is refused with
    InvalidTaskDefinition without changing the server. *)
Theorem delete_project_then_submit (io io' : StoreOutcome) (srv : Server) (pid : Uuid) (t : Task) :
  match projects srv !! pid with
  | None => delete_project io srv pid = (srv, Err (ProjectNotFound pid))
  | Some _ =>
      get_project (delete_project io srv pid).1 pid = None /\
      get_tasks_by_project (delete_project io srv pid).1 pid = [] /\
      (project_id t = Some pid ->
         exists msg, submit_task io' (delete_project io srv pid).1 t
                     = ((delete_project io srv pid).1, Err (InvalidTaskDefinition msg)))
  end.
Proof.
  unfold delete_project. destruct (projects srv !! pid) as [p|] eqn:E; [|done].
  assert (Hgen : forall srv2, tasks srv2 = clear_project pid <$> tasks srv ->
    projects srv2 = delete pid (projects srv) ->
    get_project srv2 pid = None /\ get_tasks_by_project srv2 pid = [] /\
    (project_id t = Some pid ->
       exists msg, submit_task io' srv2 t = (srv2, Err (InvalidTaskDefinition msg)))).
  { intros srv2 Ht Hp.
    unfold get_project, get_tasks_by_project. rewrite Hp, Ht, lookup_delete_eq.
    split; [done|]. split.
    - apply filter_none. intros x Hx. apply elem_of_map_values in Hx as [k Hk].
      rewrite lookup_fmap in Hk. destruct (tasks srv !! k) as [t0|]; [|discriminate].
      injection Hk as <-. unfold clear_project. case_bool_decide; simpl; done.
    - intros Hpid. unfold submit_task, validate_task.
      case_bool_decide; [eexists; reflexivity|].
      case_bool_decide; [eexists; reflexivity|].
      rewrite Hpid, Hp, lookup_delete_eq. eexists. reflexivity. }
  unfold storage_delete_project. destruct io; apply Hgen; reflexivity.
Qed.

(** [delete_task] on a missing task fails with TaskNotFound and changes
    nothing.  On an existing task it removes the task from memory even when
    the store delete fails (the call then reports StorageError), leaves
    every other task as it was, and with a working store removes it from the
    store as well. *)
Theorem delete_task_effect (io : StoreOutcome) (srv : Server) (tid : Uuid) :
  match tasks srv !! tid with
  | None => delete_task io srv tid = (srv, Err (TaskNotFound tid))
  | Some _ =>
      get_task (delete_task io srv tid).1 tid = Err (TaskNotFound tid) /\
      (forall k, k <> tid -> tasks (delete_task io srv tid).1 !! k = tasks srv !! k) /\
      (delete_task io srv tid).2 = (if store_ok io then Ok tt else Err StorageError) /\
      (io = StoreOk -> tasks_tree (storage (delete_task io srv tid).1) !! tid = None)
  end.
Proof.
  unfold delete_task. destruct (tasks srv !! tid) as [t|] eqn:E; [|done].
  unfold get_task, storage_delete_task.
  destruct io; simpl; rewrite lookup_delete_eq;
    (split; [done|]); (split; [intros k Hk; by rewrite lookup_delete_ne|]);
    (split; [done|]); first [discriminate | intros _; by rewrite lookup_delete_eq].
Qed.

Lemma can_transition_to_with_basics (t : Task) (nm cmd desc : string)
    (prio : TaskPriority) (s : TaskStatus) :
  can_transition_to (with_basics t nm cmd desc prio) s = can_transition_to t s.
Proof. reflexivity. Qed.

(** [update_task] with a status change that [set_status] refuses returns
    InvalidStatusTransition, but the name, command, description and
    priority it was given are already written to the in-memory task, while
    the status, phase, project and update time stay as they were and the
    store is not touched. *)
Theorem update_task_refused_status (io : StoreOutcome) (now : Z) (srv : Server) (tid : Uuid)
    (nm cmd desc : option string) (prio : option TaskPriority) (s : TaskStatus)
    (pid : option (option Uuid)) (t : Task) :
  tasks srv !! tid = Some t -> can_transition_to t s = false ->
  exists msg t',
    update_task io now srv tid nm cmd desc prio (Some s) pid
      = (with_tasks srv (<[tid := t']> (tasks srv)), Err (InvalidStatusTransition msg)) /\
    name t' = default (name t) nm /\ command t' = default (command t) cmd /\
    description t' = default (description t) desc /\
    priority t' = default (priority t) prio /\
    project_id t' = project_id t /\ status t' = status t /\
    current_phase t' = current_phase t /\ updated_at t' = updated_at t.
Proof.
  intros Ht Hc. unfold update_task. rewrite Ht. unfold set_status.
  rewrite can_transition_to_with_basics, Hc. cbn.
  eexists _, _. split; [reflexivity|]. repeat split.
Qed.


Lemma update_task_refused_status_witness :
  exists msg t',
    update_task StoreOk 5 (with_tasks sample_server {[1%N := planning_sample]}) 1%N
      (Some "renamed"%string) None None None (Some Testing) (Some None)
    = (with_tasks (with_tasks sample_server {[1%N := planning_sample]})
         (<[1%N := t']> {[1%N := planning_sample]}), Err (InvalidStatusTransition msg)) /\
    name t' = "renamed"%string /\ project_id t' = Some 100%N.
Proof.
  destruct (update_task_refused_status StoreOk 5
              (with_tasks sample_server {[1%N := planning_sample]}) 1%N
              (Some "renamed"%string) None None None Testing (Some None) planning_sample
              ltac:(apply lookup_singleton_eq) ltac:(reflexivity))
    as (msg & t' & H1 & H2 & _ & _ & _ & H6 & _).
  exists msg, t'. split; [exact H1|]. split; [exact H2 | exact H6].
Defined.

Lemma persist_task_insert (srv : Server) (tid : Uuid) (t : Task) :
  (persist_task StoreOk (with_tasks srv (<[tid := t]> (tasks srv))) t t).2 = Ok t /\
  get_task (persist_task StoreOk (with_tasks srv (<[tid := t]> (tasks srv))) t t).1 tid = Ok t /\
  tasks_tree (storage (persist_task StoreOk (with_tasks srv (<[tid := t]> (tasks srv))) t t).1)
    !! id t = Some t.
Proof.
  rewrite persist_task_true. unfold get_task. cbn.
  rewrite !lookup_insert_eq. auto.
Qed.

(** [update_task] on an existing task whose status change (if any) is
    allowed succeeds with a working store: the returned task is the one in
    memory and in the store, it has the given fields, the requested status,
    and the requested project id, which is written without checking that
    the project exists. *)
Theorem update_task_success (now : Z) (srv : Server) (tid : Uuid)
    (nm cmd desc : option string) (prio : option TaskPriority)
    (st : option TaskStatus) (pid : option (option Uuid)) (t : Task) :
  tasks srv !! tid = Some t ->
  match st with Some s => can_transition_to t s = true | None => True end ->
  exists t',
    (update_task StoreOk now srv tid nm cmd desc prio st pid).2 = Ok t' /\
    get_task (update_task StoreOk now srv tid nm cmd desc prio st pid).1 tid = Ok t' /\
    tasks_tree (storage (update_task StoreOk now srv tid nm cmd desc prio st pid).1) !! id t
      = Some t' /\
    id t' = id t /\ name t' = default (name t) nm /\
    command t' = default (command t) cmd /\
    description t' = default (description t) desc /\
    priority t' = default (priority t) prio /\
    status t' = default (status t) st /\
    project_id t' = default (project_id t) pid /\ updated_at t' = now.
Proof.
  intros Ht Hs. unfold update_task. rewrite Ht.
  destruct st as [s|];
    [unfold set_status; rewrite can_transition_to_with_basics, Hs; cbn [negb]|];
    match goal with
    | |- context [persist_task StoreOk _ ?x ?x] =>
        destruct (persist_task_insert srv tid x) as (H1 & H2 & H3); exists x
    end;
    (split; [exact H1|]); (split; [exact H2|]); (split; [exact H3|]); repeat split.
Qed.

Lemma update_task_success_witness :
  exists t',
    (update_task StoreOk 5 (with_tasks sample_server {[1%N := planning_sample]}) 1%N
       None None None None (Some Implementation) (Some (Some 999%N))).2 = Ok t' /\
    project_id t' = Some 999%N /\ status t' = Implementation.
Proof.
  destruct (update_task_success 5 (with_tasks sample_server {[1%N := planning_sample]}) 1%N
              None None None None (Some Implementation) (Some (Some 999%N)) planning_sample
              ltac:(apply lookup_singleton_eq) ltac:(reflexivity))
    as (t' & H1 & _ & _ & _ & _ & _ & _ & _ & H9 & H10 & _).
  exists t'. split; [exact H1|]. split; [exact H10 | exact H9].
Defined.

Lemma upsert_find_some (srv : Server) (entries : list (Uuid * Task)) (nm : string)
    (eid : Uuid) (t0 : Task) :
  entries ≡ₚ map_to_list (tasks srv) ->
  List.find (fun kv => String.eqb (name kv.2) nm) entries = Some (eid, t0) ->
  tasks srv !! eid = Some t0 /\ name t0 = nm.
Proof.
  intros Hp Hf. apply find_some in Hf as [Hin Heq]. split.
  - apply elem_of_map_to_list. rewrite <- Hp. by apply list_elem_of_In.
  - by apply String.eqb_eq.
Qed.

(** [upsert_task] with a name that exactly one task has updates that task
    in memory (command, description, priority and project; status and phase
    untouched) before validating it: when the project does not exist the
    call fails with InvalidTaskDefinition but the in-memory task stays
    changed; when the project exists (and command and name are not empty)
    it succeeds with a working store, which then holds the updated task. *)
Theorem upsert_task_existing (io : StoreOutcome) (now : Z) (srv : Server)
    (entries : list (Uuid * Task)) (new_id : Uuid) (nm cmd desc : string)
    (pid : Uuid) (prio : TaskPriority) (k : Uuid) (t : Task) :
  entries ≡ₚ map_to_list (tasks srv) ->
  tasks srv !! k = Some t -> name t = nm ->
  (forall k' t', tasks srv !! k' = Some t' -> name t' = nm -> k' = k) ->
  (projects srv !! pid = None ->
     exists msg, upsert_task io now srv entries new_id nm cmd desc pid prio
       = (with_tasks srv (<[k := with_upsert t cmd desc prio pid now]> (tasks srv)),
          Err (InvalidTaskDefinition msg))) /\
  (nm <> ""%string -> cmd <> ""%string -> projects srv !! pid <> None ->
     (upsert_task StoreOk now srv entries new_id nm cmd desc pid prio).2
       = Ok (with_upsert t cmd desc prio pid now) /\
     tasks (upsert_task StoreOk now srv entries new_id nm cmd desc pid prio).1
       = <[k := with_upsert t cmd desc prio pid now]> (tasks srv) /\
     tasks_tree (storage (upsert_task StoreOk now srv entries new_id nm cmd desc pid prio).1)
       !! id t = Some (with_upsert t cmd desc prio pid now)) /\
  status (with_upsert t cmd desc prio pid now) = status t /\
  current_phase (with_upsert t cmd desc prio pid now) = current_phase t.
Proof.
  intros Hp Hk Hn Huniq.
  assert (Hf : List.find (fun kv => String.eqb (name kv.2) nm) entries = Some (k, t)).
  { destruct (List.find _ entries) as [[eid t0]|] eqn:Hf.
    - destruct (upsert_find_some srv entries nm eid t0 Hp Hf) as [He Hnm].
      assert (eid = k) as -> by (eapply Huniq; eauto).
      rewrite Hk in He. by injection He as ->.
    - exfalso.
      assert (Hin : In (k, t) entries).
      { apply list_elem_of_In. rewrite Hp. by apply elem_of_map_to_list. }
      pose proof (find_none _ _ Hf _ Hin) as Hx. simpl in Hx.
      rewrite Hn, String.eqb_refl in Hx. discriminate. }
  unfold upsert_task. rewrite Hf, Hk. unfold validate_task.
  cbn [name command project_id with_upsert projects with_tasks].
  split; [|split; [|split; reflexivity]].
  - intros Hpr.
    case_bool_decide; [eexists; reflexivity|].
    case_bool_decide; [eexists; reflexivity|].
    rewrite Hpr. eexists. reflexivity.
  - intros Hnm Hcmd Hpr. rewrite Hn.
    rewrite (bool_decide_eq_false_2 _ Hnm), (bool_decide_eq_false_2 _ Hcmd).
    destruct (projects srv !! pid) as [pr|]; [|done].
    rewrite persist_task_true. cbn. split; [done|]. split; [done|].
    apply lookup_insert_eq.
Qed.

Lemma upsert_task_existing_witness :
  exists msg, upsert_task StoreOk 5 (with_tasks sample_server {[1%N := planning_sample]})
    [(1%N, planning_sample)] 2%N "t" "other" "d" 999%N High
  = (with_tasks (with_tasks sample_server {[1%N := planning_sample]})
       (<[1%N := with_upsert planning_sample "other" "d" High 999%N 5]> {[1%N := planning_sample]}),
     Err (InvalidTaskDefinition msg)).
Proof.
  apply (proj1 (upsert_task_existing StoreOk 5 (with_tasks sample_server {[1%N := planning_sample]})
    [(1%N, planning_sample)] 2%N "t" "other" "d" 999%N High 1%N planning_sample
    ltac:(cbn [tasks with_tasks]; rewrite map_to_list_singleton; reflexivity)
    ltac:(apply lookup_singleton_eq) ltac:(reflexivity)
    ltac:(intros k' t' Hk' _;
          cbn [tasks with_tasks] in Hk';
          apply lookup_singleton_Some in Hk' as [? _]; done))).
  reflexivity.
Defined.

(** [upsert_task] with a name no task has validates a new Planning task
    (three required reviews, a NotStarted development workflow, effective
    status Planning) under the fresh id: with a missing project it fails
    with InvalidTaskDefinition and changes nothing; otherwise (and with a
    name and a command) it succeeds with a working store and [get_task]
    returns the new task. *)
Theorem upsert_task_new (io : StoreOutcome) (now : Z) (srv : Server)
    (entries : list (Uuid * Task)) (new_id : Uuid) (nm cmd desc : string)
    (pid : Uuid) (prio : TaskPriority) :
  entries ≡ₚ map_to_list (tasks srv) ->
  (forall k t, tasks srv !! k = Some t -> name t <> nm) ->
  (projects srv !! pid = None ->
     exists msg, upsert_task io now srv entries new_id nm cmd desc pid prio
       = (srv, Err (InvalidTaskDefinition msg))) /\
  (nm <> ""%string -> cmd <> ""%string -> projects srv !! pid <> None ->
     (upsert_task StoreOk now srv entries new_id nm cmd desc pid prio).2
       = Ok (upsert_new_task new_id now nm cmd desc pid prio) /\
     get_task (upsert_task StoreOk now srv entries new_id nm cmd desc pid prio).1 new_id
       = Ok (upsert_new_task new_id now nm cmd desc pid prio)) /\
  get_effective_task_status (upsert_new_task new_id now nm cmd desc pid prio) = Planning /\
  ai_reviews_required (upsert_new_task new_id now nm cmd desc pid prio) = 3.
Proof.
  intros Hp Hn.
  assert (Hf : List.find (fun kv => String.eqb (name kv.2) nm) entries = None).
  { destruct (List.find _ entries) as [[eid t0]|] eqn:Hf; [|done].
    destruct (upsert_find_some srv entries nm eid t0 Hp Hf) as [He Hnm].
    exfalso. by apply (Hn eid t0). }
  unfold upsert_task. rewrite Hf. unfold validate_task.
  cbn [name command project_id upsert_new_task].
  split; [|split; [|split; reflexivity]].
  - intros Hpr.
    case_bool_decide; [eexists; reflexivity|].
    case_bool_decide; [eexists; reflexivity|].
    rewrite Hpr. eexists. reflexivity.
  - intros Hnm Hcmd Hpr.
    rewrite (bool_decide_eq_false_2 _ Hnm), (bool_decide_eq_false_2 _ Hcmd).
    destruct (projects srv !! pid) as [pr|]; [|done].
    rewrite persist_task_true. unfold get_task. cbn. split; [done|].
    by rewrite lookup_insert_eq.
Qed.

Lemma upsert_task_new_witness :
  (upsert_task StoreOk 5 sample_server [] 2%N "build" "make" "d" 100%N High).2
    = Ok (upsert_new_task 2%N 5 "build" "make" "d" 100%N High).
Proof.
  refine (proj1 (proj1 (proj2 (upsert_task_new StoreOk 5 sample_server [] 2%N "build" "make" "d"
    100%N High
    ltac:(change (tasks sample_server) with (∅ : gmap Uuid Task);
          rewrite map_to_list_empty; reflexivity)
    ltac:(intros k t Hk; change (tasks sample_server) with (∅ : gmap Uuid Task) in Hk;
          rewrite lookup_empty in Hk; discriminate))) _ _ _)).
  - discriminate.
  - discriminate.
  - change (projects sample_server) with ({[100%N := sample_project]} : gmap Uuid Project).
    rewrite lookup_singleton_eq. discriminate.
Defined.

(** [cancel_workflow] and [approve_workflow] behave exactly as
    [update_workflow_status] with Cancelled and Running.  On a missing
    workflow the update fails with WorkflowNotFound and changes nothing;
    otherwise [get_workflow_status] reports the new status afterwards, even
    when the store write fails, and with a working store the store holds the
    updated workflow. *)
Theorem workflow_status_updates (io : StoreOutcome) (now : Z) (srv : Server) (wid : Uuid)
    (msg : string) (s : WorkflowStatus) :
  cancel_workflow io now srv wid msg = update_workflow_status io now srv wid WfCancelled msg /\
  approve_workflow io now srv wid msg = update_workflow_status io now srv wid WfRunning msg /\
  match workflows srv !! wid with
  | None => update_workflow_status io now srv wid s msg = (srv, Err (WorkflowNotFound wid))
  | Some w =>
      get_workflow_status (update_workflow_status io now srv wid s msg).1 wid = Ok s /\
      (update_workflow_status io now srv wid s msg).2
        = (if store_ok io then Ok tt else Err StorageError) /\
      (io = StoreOk ->
         workflows_tree (storage (update_workflow_status io now srv wid s msg).1) !! w_id w
         = Some (with_w_status w s now))
  end.
Proof.
  split; [reflexivity|]. split; [reflexivity|].
  unfold update_workflow_status. destruct (workflows srv !! wid) as [w|] eqn:E; [|done].
  unfold get_workflow_status, get_workflow, persist_workflow, store_workflow.
  destruct io; cbn; rewrite lookup_insert_eq;
    (split; [done|]); (split; [done|]);
    first [discriminate | intros _; apply lookup_insert_eq].
Qed.

(** [list_workflows] answers from the store, not from memory.  After
    [submit_workflow] of a valid workflow, [get_workflow] returns it
    whatever the store does.  When the sled insert fails, a successful
    [list_workflows] is what it was before; once the insert has reached
    the tree (a full success, or a failed flush, still reported as
    StorageError) the workflow is listed. *)
Theorem list_workflows_reads_store (io : StoreOutcome) (srv : Server) (w : Workflow) :
  validate_workflow w = Ok tt ->
  (submit_workflow io srv w).2
    = (if store_ok io then Ok (w_id w) else Err StorageError) /\
  get_workflow (submit_workflow io srv w).1 (w_id w) = Ok w /\
  (io = WriteFails ->
     list_workflows true (submit_workflow io srv w).1 = list_workflows true srv) /\
  (write_applied io = true ->
     exists ws, list_workflows true (submit_workflow io srv w).1 = Ok ws /\ w ∈ ws).
Proof.
  intros Hv. unfold submit_workflow. rewrite Hv.
  unfold get_workflow, list_workflows, store_workflow.
  destruct io; cbn; rewrite lookup_insert_eq;
    (split; [done|]); (split; [done|]);
    (split; [first [discriminate | intros _; done] |]);
    first [discriminate |
           intros _; eexists; split; [reflexivity|];
           apply elem_of_map_values; exists (w_id w); apply lookup_insert_eq].
Qed.

Lemma list_workflows_reads_store_witness :
  (submit_workflow FlushFails sample_server
     (mk_workflow [mk_task 1 [] Planning [] 3 0 None])).2 = Err StorageError /\
  (exists ws, list_workflows true (submit_workflow FlushFails sample_server
     (mk_workflow [mk_task 1 [] Planning [] 3 0 None])).1 = Ok ws /\
   mk_workflow [mk_task 1 [] Planning [] 3 0 None] ∈ ws) /\
  list_workflows true (submit_workflow WriteFails sample_server
     (mk_workflow [mk_task 1 [] Planning [] 3 0 None])).1
    = list_workflows true sample_server.
Proof.
  destruct (list_workflows_reads_store FlushFails sample_server
              (mk_workflow [mk_task 1 [] Planning [] 3 0 None])
              ltac:(vm_compute; reflexivity)) as (H1 & _ & _ & H4).
  destruct (list_workflows_reads_store WriteFails sample_server
              (mk_workflow [mk_task 1 [] Planning [] 3 0 None])
              ltac:(vm_compute; reflexivity)) as (_ & _ & H3 & _).
  split; [exact H1|]. split; [exact (H4 eq_refl) | exact (H3 eq_refl)].
Defined.

Lemma advance_development_workflow_memory (io : StoreOutcome) (now : Z) (srv : Server)
    (tid : Uuid) (t : Task) :
  tasks srv !! tid = Some t ->
  tasks (advance_development_workflow io now srv tid).1
  = <[tid := dev_workflow_next_task now t]> (tasks srv).
Proof.
  intros Ht. unfold advance_development_workflow, dev_workflow_next_task. rewrite Ht.
  destruct (development_workflow t) as [w|];
    [destruct (next_dev_workflow now w)|]; apply persist_task_tasks.
Qed.

Lemma next_dev_workflow_status (now : Z) (w : DevelopmentWorkflow) :
  workflow_status (next_dev_workflow now w).1 = next_dev_status (workflow_status w) /\
  (next_dev_workflow now w).2 = next_dev_status (workflow_status w).
Proof. unfold next_dev_workflow. by destruct (workflow_status w). Qed.

(** One call of [advance_development_workflow] on an existing task writes
    the task with its next development-workflow status to memory (even when
    the store write fails) and returns that status with a working store;
    the status is never NotStarted, the task's effective status becomes the
    phase of that workflow status, and a Completed or Failed workflow stays
    where it is. *)
Theorem advance_development_workflow_step (io : StoreOutcome) (now : Z) (srv : Server)
    (tid : Uuid) (t : Task) :
  tasks srv !! tid = Some t ->
  exists w' s,
    tasks (advance_development_workflow io now srv tid).1 !! tid
      = Some (with_workflow t (Some w') now) /\
    workflow_status w' = s /\ s <> NotStarted /\
    (advance_development_workflow io now srv tid).2
      = (if store_ok io then Ok s else Err StorageError) /\
    get_effective_task_status (with_workflow t (Some w') now) = workflow_phase_map s /\
    (forall w, development_workflow t = Some w ->
       workflow_status w = WCompleted \/ workflow_status w = WFailed ->
       s = workflow_status w).
Proof.
  intros Ht.
  rewrite (advance_development_workflow_memory io now srv tid t Ht), lookup_insert_eq.
  unfold advance_development_workflow, dev_workflow_next_task. rewrite Ht.
  destruct (development_workflow t) as [w|] eqn:Ew.
  - destruct (next_dev_workflow_status now w) as [H1 H2].
    destruct (next_dev_workflow now w) as [w' nx] eqn:En. cbn in H1, H2.
    exists w', nx. rewrite persist_task_result. split; [done|]. split; [congruence|].
    split; [subst nx; destruct (workflow_status w); discriminate|].
    split; [done|]. split.
    + unfold get_effective_task_status. cbn [development_workflow with_workflow].
      rewrite H1. subst nx. destruct (workflow_status w); reflexivity.
    + intros w0 Hw0 Hfix. injection Hw0 as <-. subst nx.
      destruct Hfix as [-> | ->]; reflexivity.
  - eexists _, _. rewrite persist_task_result. split; [reflexivity|].
    split; [reflexivity|]. split; [discriminate|]. split; [reflexivity|].
    split; [reflexivity|]. intros w0 Hw0. discriminate.
Qed.

Lemma advance_development_workflow_step_witness :
  exists w' s,
    tasks (advance_development_workflow StoreOk 5
             (with_tasks sample_server {[1%N := planning_sample]}) 1%N).1 !! 1%N
      = Some (with_workflow planning_sample (Some w') 5) /\ s = WPlanning /\
    (advance_development_workflow StoreOk 5
       (with_tasks sample_server {[1%N := planning_sample]}) 1%N).2 = Ok s.
Proof.
  destruct (advance_development_workflow_step StoreOk 5
              (with_tasks sample_server {[1%N := planning_sample]}) 1%N planning_sample
              ltac:(apply lookup_singleton_eq)) as (w' & s & H1 & H2 & _ & H4 & _).
  exists w', s. split; [exact H1|]. split; [|exact H4].
  assert (Hr : (advance_development_workflow StoreOk 5
                 (with_tasks sample_server {[1%N := planning_sample]}) 1%N).2 = Ok WPlanning).
  { unfold advance_development_workflow.
    cbn [tasks with_tasks]. rewrite lookup_singleton_eq. reflexivity. }
  assert (Hs : Ok s = Ok WPlanning) by (rewrite <- Hr; symmetry; exact H4).
  congruence.
Defined.

Lemma advance_development_workflow_n_lookup (n : nat) (now : Z) (srv : Server)
    (tid : Uuid) (t : Task) :
  tasks srv !! tid = Some t ->
  tasks (advance_development_workflow_n n now srv tid) !! tid
  = Some (Nat.iter n (dev_workflow_next_task now) t).
Proof.
  revert srv t. induction n as [|n IH]; intros srv t Ht; [done|].
  cbn [advance_development_workflow_n].
  rewrite (IH _ (dev_workflow_next_task now t)).
  - by rewrite Nat.iter_succ_r.
  - rewrite (advance_development_workflow_memory StoreOk now srv tid t Ht).
    apply lookup_insert_eq.
Qed.

Lemma dev_workflow_iter (n : nat) (now : Z) (t : Task) (w : DevelopmentWorkflow) :
  development_workflow t = Some w ->
  (exists w', development_workflow (Nat.iter n (dev_workflow_next_task now) t) = Some w' /\
     workflow_status w' = Nat.iter n next_dev_status (workflow_status w)) /\
  current_phase (Nat.iter n (dev_workflow_next_task now) t) = current_phase t.
Proof.
  intros Hw. induction n as [|n [[w' [Hd Hs]] Hc]]; [eauto|].
  rewrite !Nat.iter_succ. unfold dev_workflow_next_task at 1 3. rewrite Hd.
  split; [|exact Hc]. exists (next_dev_workflow now w').1. split; [done|].
  rewrite (proj1 (next_dev_workflow_status now w')), Hs. reflexivity.
Qed.

(** Repeated [advance_development_workflow] with a working store brings any
    task whose development workflow has not failed (or that has none yet)
    to a Completed workflow in at most six calls, its effective status is
    then Completed while its own phase is unchanged, and a further call
    returns Completed again. *)
Theorem advance_development_workflow_completes (now : Z) (srv : Server) (tid : Uuid)
    (t : Task) :
  tasks srv !! tid = Some t ->
  (forall w, development_workflow t = Some w -> workflow_status w <> WFailed) ->
  exists n t' w', (n <= 6)%nat /\
    tasks (advance_development_workflow_n n now srv tid) !! tid = Some t' /\
    development_workflow t' = Some w' /\ workflow_status w' = WCompleted /\
    get_effective_task_status t' = Completed /\
    current_phase t' = current_phase t /\
    (advance_development_workflow StoreOk now (advance_development_workflow_n n now srv tid) tid).2
      = Ok WCompleted.
Proof.
  intros Ht Hnf.
  assert (Hfin : forall n t' w', tasks (advance_development_workflow_n n now srv tid) !! tid = Some t' ->
    development_workflow t' = Some w' -> workflow_status w' = WCompleted ->
    get_effective_task_status t' = Completed /\
    (advance_development_workflow StoreOk now (advance_development_workflow_n n now srv tid) tid).2
      = Ok WCompleted).
  { intros n t' w' Hl Hd Hs. split.
    - unfold get_effective_task_status. rewrite Hd, Hs. reflexivity.
    - unfold advance_development_workflow. rewrite Hl, Hd.
      destruct (next_dev_workflow_status now w') as [_ H2].
      destruct (next_dev_workflow now w') as [w'' nx]. cbn in H2.
      rewrite persist_task_result, H2, Hs. reflexivity. }
  destruct (development_workflow t) as [w|] eqn:Ew.
  - assert (Hn : exists n, (n <= 6)%nat /\
                   Nat.iter n next_dev_status (workflow_status w) = WCompleted).
    { specialize (Hnf w eq_refl). destruct (workflow_status w);
        [exists 6%nat | exists 5%nat | exists 4%nat | exists 3%nat | exists 2%nat
        | exists 1%nat | exists 0%nat | done]; split; (lia || reflexivity). }
    destruct Hn as [n [Hle Hit]].
    destruct (dev_workflow_iter n now t w Ew) as [[w' [Hd Hs]] Hc].
    pose proof (advance_development_workflow_n_lookup n now srv tid t Ht) as Hl.
    destruct (Hfin n _ w' Hl Hd ltac:(congruence)) as [He Hr].
    exists n, (Nat.iter n (dev_workflow_next_task now) t), w'.
    repeat split; try done. congruence.
  - set (t1 := dev_workflow_next_task now t).
    assert (Hd1 : development_workflow t1
                  = Some {| technical_documentation_path := None;
                            test_coverage_percentage := None; ai_review_reports := [];
                            workflow_status := WPlanning; wf_started_at := Some now;
                            wf_completed_at := None |})
      by (unfold t1, dev_workflow_next_task; rewrite Ew; reflexivity).
    assert (Hc1 : current_phase t1 = current_phase t)
      by (unfold t1, dev_workflow_next_task; rewrite Ew; reflexivity).
    destruct (dev_workflow_iter 5 now t1 _ Hd1) as [[w' [Hd Hs]] Hc].
    pose proof (advance_development_workflow_n_lookup 6 now srv tid t Ht) as Hl.
    rewrite Nat.iter_succ_r in Hl. fold t1 in Hl.
    destruct (Hfin 6%nat _ w' Hl Hd Hs) as [He Hr].
    exists 6%nat, (Nat.iter 5 (dev_workflow_next_task now) t1), w'.
    repeat split; try done. congruence.
Qed.

Lemma advance_development_workflow_completes_witness :
  exists n t' w', (n <= 6)%nat /\
    tasks (advance_development_workflow_n n 5
             (with_tasks sample_server {[1%N := planning_sample]}) 1%N) !! 1%N = Some t' /\
    development_workflow t' = Some w' /\ workflow_status w' = WCompleted.
Proof.
  destruct (advance_development_workflow_completes 5
              (with_tasks sample_server {[1%N := planning_sample]}) 1%N planning_sample
              ltac:(apply lookup_singleton_eq)
              ltac:(intros w Hw; discriminate))
    as (n & t' & w' & H1 & H2 & H3 & H4 & _).
  exists n, t', w'. auto.
Defined.

(** [set_technical_documentation] and [set_test_coverage] fail with
    TaskNotFound on a missing task and with ValidationError on a task
    without a development workflow, changing nothing; otherwise they write
    the path or the coverage into the workflow in memory (even when the
    store write fails) and leave its status and review reports, and hence
    the task's effective status, unchanged. *)
Theorem workflow_setters_frame (io : StoreOutcome) (now : Z) (srv : Server) (tid : Uuid)
    (path : string) (cov : Q) :
  match tasks srv !! tid with
  | None =>
      set_technical_documentation io now srv tid path = (srv, Err (TaskNotFound tid)) /\
      set_test_coverage io now srv tid cov = (srv, Err (TaskNotFound tid))
  | Some t =>
      match development_workflow t with
      | None =>
          (exists e, set_technical_documentation io now srv tid path
                     = (srv, Err (ValidationError e))) /\
          (exists e, set_test_coverage io now srv tid cov = (srv, Err (ValidationError e)))
      | Some w =>
          exists w1 w2,
            tasks (set_technical_documentation io now srv tid path).1 !! tid
              = Some (with_workflow t (Some w1) now) /\
            tasks (set_test_coverage io now srv tid cov).1 !! tid
              = Some (with_workflow t (Some w2) now) /\
            technical_documentation_path w1 = Some path /\
            test_coverage_percentage w2 = Some cov /\
            workflow_status w1 = workflow_status w /\
            workflow_status w2 = workflow_status w /\
            ai_review_reports w1 = ai_review_reports w /\
            ai_review_reports w2 = ai_review_reports w /\
            get_effective_task_status (with_workflow t (Some w1) now)
              = get_effective_task_status t /\
            get_effective_task_status (with_workflow t (Some w2) now)
              = get_effective_task_status t
      end
  end.
Proof.
  unfold set_technical_documentation, set_test_coverage.
  destruct (tasks srv !! tid) as [t|] eqn:Ht; [|done].
  destruct (development_workflow t) as [w|] eqn:Ew;
    [|split; eexists; reflexivity].
  exists (set_doc_path w path), (set_coverage w cov).
  rewrite !persist_task_tasks. cbn [tasks with_tasks]. rewrite !lookup_insert_eq.
  do 8 (split; [reflexivity|]).
  unfold get_effective_task_status. rewrite Ew. split; reflexivity.
Qed.

(** The HTTP [update_task] handler answers NOT_FOUND, without changing the
    server, for a missing task.  For an existing task it answers OK exactly
    when the store write succeeds and the requested status (if it names
    one of the handler's statuses) is an allowed transition, and NOT_FOUND
    otherwise, a refused transition included.  A status string the handler
    does not know is dropped: the call behaves as if no status was given. *)
Theorem http_update_task_codes (io : StoreOutcome) (now : Z) (srv : Server) (tid : Uuid)
    (nm cmd desc prio st : option string) (pid : option (option Uuid)) :
  match tasks srv !! tid with
  | None => http_update_task io now srv tid nm cmd desc prio st pid = (srv, NOT_FOUND)
  | Some t =>
      (http_update_task io now srv tid nm cmd desc prio st pid).2
      = if store_ok io && match st ≫= parse_update_status with
                 | Some s => can_transition_to t s
                 | None => true
                 end
        then OK else NOT_FOUND
  end /\
  (forall s, parse_update_status s = None ->
     http_update_task io now srv tid nm cmd desc prio (Some s) pid
     = http_update_task io now srv tid nm cmd desc prio None pid).
Proof.
  split.
  - unfold http_update_task, update_task.
    destruct (tasks srv !! tid) as [t|] eqn:Ht; [|reflexivity].
    destruct (st ≫= parse_update_status) as [s|].
    + unfold set_status. rewrite can_transition_to_with_basics.
      destruct (can_transition_to t s); cbn [negb];
        [destruct io | rewrite andb_false_r]; reflexivity.
    + destruct io; reflexivity.
  - intros s Hs. unfold http_update_task.
    change (Some s ≫= parse_update_status) with (parse_update_status s).
    rewrite Hs. reflexivity.
Qed.

(** The HTTP [set_task_status] handler never answers NOT_FOUND: a missing
    or unknown status name and a missing task are all BAD_REQUEST without
    any change.  It answers OK exactly when the name is one of its eight
    statuses, the task exists, the transition is allowed and the store
    write succeeds. *)
Theorem http_set_task_status_codes (io : StoreOutcome) (now : Z) (srv : Server) (tid : Uuid)
    (sf : option string) :
  (http_set_task_status io now srv tid sf).2 <> NOT_FOUND /\
  ((http_set_task_status io now srv tid sf).2 = OK <->
   io = StoreOk /\ exists s st t, sf = Some s /\ parse_set_status s = Some st /\
     tasks srv !! tid = Some t /\ can_transition_to t st = true) /\
  ((tasks srv !! tid = None \/ sf = None \/
    exists s, sf = Some s /\ parse_set_status s = None) ->
   http_set_task_status io now srv tid sf = (srv, BAD_REQUEST)).
Proof.
  unfold http_set_task_status.
  destruct sf as [s|].
  2:{ split; [discriminate|]. split; [|done].
      split; [discriminate|]. intros (_ & s & st & t & Hs & _); discriminate. }
  destruct (parse_set_status s) as [st|] eqn:Hp.
  2:{ split; [discriminate|]. split; [|done].
      split; [discriminate|]. intros (_ & s' & st & t & Hs & Hp' & _).
      injection Hs as <-. congruence. }
  unfold set_task_status. destruct (tasks srv !! tid) as [t|] eqn:Ht.
  2:{ split; [discriminate|]. split; [|done].
      split; [discriminate|]. intros (_ & s' & st' & t & _ & _ & Ht' & _). discriminate. }
  unfold set_status. destruct (can_transition_to t st) eqn:Hc; cbn [negb].
  - destruct io; cbn.
    + split; [discriminate|]. split.
      * split; [intros _; split; [done|]; exists s, st, t; auto | done].
      * intros [Hn | [Hn | (s' & Hs & Hp')]]; [discriminate | discriminate |].
        injection Hs as <-. congruence.
    + split; [discriminate|]. split.
      * split; [discriminate | intros [Hf _]; discriminate].
      * intros [Hn | [Hn | (s' & Hs & Hp')]]; [discriminate | discriminate |].
        injection Hs as <-. congruence.
    + split; [discriminate|]. split.
      * split; [discriminate | intros [Hf _]; discriminate].
      * intros [Hn | [Hn | (s' & Hs & Hp')]]; [discriminate | discriminate |].
        injection Hs as <-. congruence.
  - split; [discriminate|]. split.
    + split; [discriminate|]. intros (_ & s' & st' & t' & Hs & Hp' & Ht' & Hc').
      injection Hs as <-. rewrite Hp in Hp'. injection Hp' as <-.
      injection Ht' as <-. congruence.
    + intros [Hn | [Hn | (s' & Hs & Hp')]]; [discriminate | discriminate |].
      injection Hs as <-. congruence.
Qed.

(** The HTTP [submit_task] handler builds a task in the Planning phase with
    a matching first phase record and effective status Planning; it answers
    OK exactly when the store write succeeds, the name and the command are
    not empty and the request names an existing project (BAD_REQUEST
    otherwise), and after OK [get_task] returns the built task. *)
Theorem http_submit_task_codes (io : StoreOutcome) (now : Z) (srv : Server) (new_id : Uuid)
    (rq : CreateTaskRequest) :
  phase_agree (request_to_task new_id now rq) /\
  get_effective_task_status (request_to_task new_id now rq) = Planning /\
  ((http_submit_task io now srv new_id rq).2 = OK <->
   io = StoreOk /\ rq_name rq <> ""%string /\ rq_command rq <> ""%string /\
   exists pid p, rq_project_id rq = Some pid /\ projects srv !! pid = Some p) /\
  ((http_submit_task io now srv new_id rq).2 = OK ->
   get_task (http_submit_task io now srv new_id rq).1 new_id
   = Ok (request_to_task new_id now rq)).
Proof.
  split; [reflexivity|]. split; [reflexivity|].
  unfold http_submit_task, submit_task, validate_task.
  cbn [name command project_id request_to_task].
  case_bool_decide as Hn.
  { split; [|discriminate]. split; [discriminate|]. intros (_ & Hn' & _). done. }
  case_bool_decide as Hc.
  { split; [|discriminate]. split; [discriminate|]. intros (_ & _ & Hc' & _). done. }
  destruct (rq_project_id rq) as [pid|] eqn:Hpid.
  2:{ split; [|discriminate]. split; [discriminate|].
      intros (_ & _ & _ & pid & p & Hp & _). discriminate. }
  destruct (projects srv !! pid) as [p|] eqn:Hpr.
  2:{ split; [|discriminate]. split; [discriminate|].
      intros (_ & _ & _ & pid' & p & Hp & Hpr'). injection Hp as <-. congruence. }
  destruct io; cbn.
  - split.
    + split; [intros _; repeat split; try done; exists pid, p; auto | done].
    + intros _. unfold get_task. cbn. by rewrite lookup_insert_eq.
  - split; [|discriminate]. split; [discriminate|]. intros [Hf _]. discriminate.
  - split; [|discriminate]. split; [discriminate|]. intros [Hf _]. discriminate.
Qed.
